(** * Lunar lander: terrain, craft dynamics and landing evaluation

    A shallow embedding of [lunarlander-o3.py].

    Numbers.  Python [int]s are [Z].  Python [float]s are modelled by exact
    rationals [Q]: every arithmetic step of the program ([+], [-], [*], [/],
    comparison, [int()], [//]) has its exact counterpart on [Q], and the
    models below compute.  Rounding of IEEE doubles is not modelled: the
    lemmas on computed values are facts of exact arithmetic, and a claim
    that rounding could disturb is stated with an explicit margin.

    Errors.  Python exceptions that the modelled code can raise in principle
    ([IndexError], [ZeroDivisionError], [ValueError]) are results of the
    model; a loop is run with a fuel and reports [OutOfFuel] when the fuel
    does not suffice.

    Library functions.  [math.sin], [math.cos], [math.radians] and
    [math.hypot] are not rational functions; they are the members of the
    class [Math], over which the craft dynamics and the landing evaluation
    are parametric.  [random.randint] draws from an explicit source. *)

From Stdlib Require Import Ascii String ZArith QArith Qround Qabs Qminmax.
From Stdlib Require Import List Bool Lia Lqa.
Import ListNotations.

Local Open Scope Q_scope.

(* ===================================================================== *)
(** * Results of fallible code *)
(* ===================================================================== *)

Inductive error : Type :=
| IndexError
| ZeroDivisionError
| ValueError
| OutOfFuel.

Inductive result (A : Type) : Type :=
| Ok (a : A)
| Raise (e : error).

Arguments Ok {A} a.
Arguments Raise {A} e.

Definition bind {A B : Type} (c : result A) (k : A -> result B) : result B :=
  match c with
  | Ok a => k a
  | Raise e => Raise e
  end.

Notation "x <- c ;; k" := (bind c (fun x => k))
  (at level 61, c at next level, right associativity).
Notation "' p <- c ;; k" := (bind c (fun x => let p := x in k))
  (at level 61, p pattern, c at next level, right associativity).

Fixpoint mapM {A B : Type} (f : A -> result B) (l : list A) : result (list B) :=
  match l with
  | [] => Ok []
  | a :: l' => b <- f a ;; bs <- mapM f l' ;; Ok (b :: bs)
  end.

(* ===================================================================== *)
(** * Python primitives *)
(* ===================================================================== *)

Module Py.

(** [l[i]]: negative indexes count from the end, anything outside
    [-len l .. len l - 1] raises [IndexError]. *)
Definition index {A : Type} (l : list A) (i : Z) : result A :=
  let n := Z.of_nat (length l) in
  let j := if (i <? 0)%Z then (n + i)%Z else i in
  if (j <? 0)%Z then Raise IndexError
  else match nth_error l (Z.to_nat j) with
       | Some a => Ok a
       | None => Raise IndexError
       end.

(** [a / b] on floats. *)
Definition div (a b : Q) : result Q :=
  if Qeq_bool b 0 then Raise ZeroDivisionError else Ok (a / b).

(** [int(x // step)] for a float [x] and an int [step]. *)
Definition floordiv (x : Q) (step : Z) : result Z :=
  if (step =? 0)%Z then Raise ZeroDivisionError
  else Ok (Qfloor (x / inject_Z step)).

(** [int(x)] on a float: truncation toward zero. *)
Definition int (x : Q) : Z := Z.quot (Qnum x) (Zpos (Qden x)).

(** [range(a, b, step)] for a positive [step]. *)
Definition range (a b step : Z) : list Z :=
  map (fun k => (a + step * Z.of_nat k)%Z)
      (seq 0 (Z.to_nat ((b - a + step - 1) / step))).

(** [sum(l)] on floats. *)
Definition sum (l : list Q) : Q := fold_left Qplus l 0.

End Py.

(* ===================================================================== *)
(** * Screen settings *)
(* ===================================================================== *)

Definition WIDTH : Z := 1200.
Definition HEIGHT : Z := 800.

(* ===================================================================== *)
(** * Terrain height field *)
(* ===================================================================== *)

(** A terrain sample [(x, y)]: [x] is always an [int] of the grid, [y] is an
    [int] when drawn and a [float] after smoothing. *)
Abbreviation point := (Z * Q)%type (only parsing).

(** [get_terrain_height(x, terrain_points, step=20)]. *)
Definition get_terrain_height (x : Q) (terrain_points : list point) (step : Z)
  : result Q :=
  if Qle_bool x 0 then
    p <- Py.index terrain_points 0 ;; Ok (snd p)
  else if Qle_bool (inject_Z WIDTH) x then
    p <- Py.index terrain_points (-1) ;; Ok (snd p)
  else
    idx <- Py.floordiv x step ;;
    p1 <- Py.index terrain_points idx ;;
    p2 <- Py.index terrain_points
            (Z.min (idx + 1) (Z.of_nat (length terrain_points) - 1)) ;;
    t <- Py.div (x - inject_Z (fst p1)) (inject_Z (fst p2 - fst p1)) ;;
    Ok (snd p1 * (1 - t) + snd p2 * t).

(** The x-coordinates of a height profile of the game: [range(0, WIDTH + 1, 20)]. *)
Definition grid_xs : list Z := Py.range 0 (WIDTH + 1) 20.

Definition grid_profile (pts : list point) : Prop := map fst pts = grid_xs.

(* ===================================================================== *)
(** * Smoothing *)
(* ===================================================================== *)

(** The body of the inner loop of [smooth_terrain] at index [i]: the point
    appended to [new_points]. *)
Definition smooth_at (points : list point) (i : Z) : result point :=
  a <- Py.index points (i - 1) ;;
  b <- Py.index points i ;;
  c <- Py.index points (i + 1) ;;
  let avg_y := (snd a + snd b + snd c) / 3 in
  Ok (fst b, avg_y).

(** One iteration of the outer loop of [smooth_terrain]: [new_points] is
    built from the [points] of the previous iteration only. *)
Definition smooth_pass (points : list point) : result (list point) :=
  first <- Py.index points 0 ;;
  interior <- mapM (smooth_at points)
                   (Py.range 1 (Z.of_nat (length points) - 1) 1) ;;
  last <- Py.index points (-1) ;;
  Ok ((first :: interior) ++ [last]).

(** [smooth_terrain(points, iterations=2)]. *)
Fixpoint smooth_terrain (points : list point) (iterations : nat)
  : result (list point) :=
  match iterations with
  | O => Ok points
  | S n => new_points <- smooth_pass points ;; smooth_terrain new_points n
  end.

(** The height of the sample at index [i] (0 outside the profile). *)
Definition origin : point := (0%Z, 0).

Definition height (pts : list point) (i : nat) : Q := snd (nth i pts origin).

(** The profile after one pass, point by point: the two end points stay,
    an interior point takes the mean of its neighbourhood. *)
Definition smoothed_point (pts : list point) (i : nat) : point :=
  if (i =? 0)%nat || (i =? length pts - 1)%nat then nth i pts origin
  else (fst (nth i pts origin),
        (height pts (i - 1) + height pts i + height pts (i + 1)) / 3).





(* ===================================================================== *)
(** * Random source *)
(* ===================================================================== *)

(** The random source: an infinite supply of raw draws and a cursor.
    [random.randint(a, b)] returns an integer of [a .. b] and raises
    [ValueError] on an empty range; every behaviour of [randint] is the
    behaviour on some supply. *)
Record Rng : Type := { draws : nat -> Z; cursor : nat }.

Definition randint (a b : Z) (g : Rng) : result (Z * Rng) :=
  if (b <? a)%Z then Raise ValueError
  else Ok ((a + draws g (cursor g) mod (b - a + 1))%Z,
           {| draws := draws g; cursor := S (cursor g) |}).

(** A supply given by a finite list, continued by zeros. *)
Definition rng_of_list (l : list Z) : Rng :=
  {| draws := fun n => nth n l 0%Z; cursor := O |}.

(* ===================================================================== *)
(** * Landing zones *)
(* ===================================================================== *)

(** [pygame.Rect(x, y, width, height)] on integers. *)
Module Rect.
Record t : Type := make { x : Z; y : Z; width : Z; height : Z }.
Definition left (r : t) : Z := x r.
Definition right (r : t) : Z := (x r + width r)%Z.
End Rect.

Record LandingZone : Type := {
  rect : Rect.t;
  maxLandingSpeed : Q;
  label : string
}.

(** [LandingZone.__init__]. *)
Definition LandingZone_init (x y width height : Z) (maxLandingSpeed : Q)
                            (label : string) : LandingZone :=
  {| rect := Rect.make x y width height;
     maxLandingSpeed := maxLandingSpeed;
     label := label |}.

(* ===================================================================== *)
(** * Terrain generator *)
(* ===================================================================== *)

Definition step : Z := 20.
Definition num_zones : Z := 3.
Definition pad_thickness : Z := 10.

(** The first loop of [generate_terrain_and_landing_zones]: one draw per
    grid abscissa. *)
Fixpoint rough_terrain (xs : list Z) (g : Rng) : result (list point * Rng) :=
  match xs with
  | [] => Ok ([], g)
  | x :: xs' =>
      ' (y, g1) <- randint (HEIGHT - 300) (HEIGHT - 100) g ;;
      ' (rest, g2) <- rough_terrain xs' g1 ;;
      Ok ((x, inject_Z y) :: rest, g2)
  end.

(** The variables of the placement loop. *)
Record GenState : Type := {
  terrain_points : list point;
  landing_zones : list LandingZone;
  attempts : Z;
  used_zones : list (Z * Z);
  rng : Rng
}.

(** The inner [for zone in used_zones] loop: [overlap] becomes [True] at the
    first zone for which [not (pad_right < zone[0] or pad_x > zone[1])]. *)
Definition overlap (pad_x pad_right : Z) (used_zones : list (Z * Z)) : bool :=
  existsb (fun zone => negb ((pad_right <? fst zone)%Z || (pad_x >? snd zone)%Z))
          used_zones.

(** The samples of the pad: [get_terrain_height] at [range(pad_x, pad_right + 1, step)]. *)
Definition pad_samples (pad_x pad_right : Z) (terrain_points : list point)
  : result (list Q) :=
  mapM (fun x => get_terrain_height (inject_Z x) terrain_points step)
       (Py.range pad_x (pad_right + 1) step).

(** The flattening loop.  It visits every index once and assigns at the
    visited index only, so it is a map over the list. *)
Definition flatten (pad_x pad_right : Z) (pad_y : Q) (terrain_points : list point)
  : list point :=
  map (fun p : point =>
         let (tx, ty) := p in
         if (pad_x <=? tx)%Z && (tx <=? pad_right)%Z then (tx, pad_y) else (tx, ty))
      terrain_points.

(** The body of the placement loop, for one candidate. *)
Definition attempt (st : GenState) : result GenState :=
  let attempts := (attempts st + 1)%Z in
  ' (pad_width, g1) <- randint 80 150 (rng st) ;;
  ' (pad_x, g2) <- randint 50 (WIDTH - pad_width - 50) g1 ;;
  let pad_right := (pad_x + pad_width)%Z in
  let continue :=
    {| terrain_points := terrain_points st;
       landing_zones := landing_zones st;
       attempts := attempts;
       used_zones := used_zones st;
       rng := g2 |} in
  if overlap pad_x pad_right (used_zones st) then Ok continue
  else
    samples <- pad_samples pad_x pad_right (terrain_points st) ;;
    match samples with
    | [] => Ok continue
    | _ :: _ =>
        let pad_y := Py.sum samples / inject_Z (Z.of_nat (length samples)) in
        let zone_rect :=
          Rect.make pad_x (Py.int (pad_y - inject_Z pad_thickness))
                    pad_width pad_thickness in
        Ok {| terrain_points := flatten pad_x pad_right pad_y (terrain_points st);
              landing_zones :=
                landing_zones st ++
                [LandingZone_init (Rect.x zone_rect) (Rect.y zone_rect)
                                  (Rect.width zone_rect) (Rect.height zone_rect)
                                  2 "Pad"];
              attempts := attempts;
              used_zones := used_zones st ++ [(pad_x, pad_right)];
              rng := g2 |}
    end.

(** [while len(landing_zones) < num_zones and attempts < 20]. *)
Definition placing (st : GenState) : bool :=
  (Z.of_nat (length (landing_zones st)) <? num_zones)%Z && (attempts st <? 20)%Z.

Fixpoint place_loop (fuel : nat) (st : GenState) : result GenState :=
  if placing st then
    match fuel with
    | O => Raise OutOfFuel
    | S fuel' => st' <- attempt st ;; place_loop fuel' st'
    end
  else Ok st.

(** [generate_terrain_and_landing_zones], up to its [return]. *)
Definition generation (fuel : nat) (g : Rng) : result GenState :=
  ' (rough, g1) <- rough_terrain (Py.range 0 (WIDTH + 1) step) g ;;
  smoothed <- smooth_terrain rough 3 ;;
  place_loop fuel
    {| terrain_points := smoothed;
       landing_zones := [];
       attempts := 0;
       used_zones := [];
       rng := g1 |}.

Definition generate_terrain_and_landing_zones (fuel : nat) (g : Rng)
  : result (list point * list LandingZone) :=
  st <- generation fuel g ;;
  Ok (terrain_points st, landing_zones st).

(* ===================================================================== *)
(** * Craft dynamics *)
(* ===================================================================== *)

(** The functions of Python's [math] module that the game calls. *)
Class Math : Type := {
  sin : Q -> Q;
  cos : Q -> Q;
  radians : Q -> Q;
  hypot : Q -> Q -> Q
}.

(** [a < b] on floats, as a boolean. *)
Definition Qlt_bool (a b : Q) : bool := negb (Qle_bool b a).

Module Lander.

Record t : Type := make {
  x : Q;
  y : Q;
  vx : Q;
  vy : Q;
  angle : Q;
  fuel : Q;
  gravity : Q;
  thrust : Q;
  fuelConsumptionRate : Q
}.

(** Attribute assignments [self.f = v]. *)
Definition set_x (self : t) (v : Q) : t :=
  make v (y self) (vx self) (vy self) (angle self) (fuel self)
       (gravity self) (thrust self) (fuelConsumptionRate self).
Definition set_y (self : t) (v : Q) : t :=
  make (x self) v (vx self) (vy self) (angle self) (fuel self)
       (gravity self) (thrust self) (fuelConsumptionRate self).
Definition set_vx (self : t) (v : Q) : t :=
  make (x self) (y self) v (vy self) (angle self) (fuel self)
       (gravity self) (thrust self) (fuelConsumptionRate self).
Definition set_vy (self : t) (v : Q) : t :=
  make (x self) (y self) (vx self) v (angle self) (fuel self)
       (gravity self) (thrust self) (fuelConsumptionRate self).
Definition set_angle (self : t) (v : Q) : t :=
  make (x self) (y self) (vx self) (vy self) v (fuel self)
       (gravity self) (thrust self) (fuelConsumptionRate self).
Definition set_fuel (self : t) (v : Q) : t :=
  make (x self) (y self) (vx self) (vy self) (angle self) v
       (gravity self) (thrust self) (fuelConsumptionRate self).

(** [Lander.__init__(gravity=0.1)]. *)
Definition init (gravity : Q) : t :=
  {| x := inject_Z (WIDTH / 2);
     y := 100;
     vx := 0;
     vy := 0;
     angle := 0;
     fuel := 100;
     gravity := gravity;
     thrust := 2 # 10;
     fuelConsumptionRate := 20 |}.

(** [Lander.update(dt, thrusting)], statement by statement. *)
Definition update `{M : Math} (dt : Q) (thrusting : bool) (self : t) : t :=
  let self := set_vy self (vy self + gravity self) in
  let self :=
    if thrusting && Qlt_bool 0 (fuel self) then
      let rad := radians (angle self) in
      let ax := - thrust self * sin rad in
      let ay := - thrust self * cos rad in
      let self := set_vx self (vx self + ax) in
      let self := set_vy self (vy self + ay) in
      let self := set_fuel self (fuel self - fuelConsumptionRate self * dt) in
      if Qlt_bool (fuel self) 0 then set_fuel self 0 else self
    else self in
  let self := set_x self (x self + vx self) in
  set_y self (y self + vy self).

(** The update step in the words of the specification: the new value of
    every attribute in closed form. *)
Definition update_spec `{M : Math} (dt : Q) (thrusting : bool) (c : t) : t :=
  let burning := thrusting && Qlt_bool 0 (fuel c) in
  let vx' :=
    if burning then vx c + - thrust c * sin (radians (angle c)) else vx c in
  let vy' :=
    if burning then vy c + gravity c + - thrust c * cos (radians (angle c))
    else vy c + gravity c in
  let burnt := fuel c - fuelConsumptionRate c * dt in
  let fuel' :=
    if burning then (if Qlt_bool burnt 0 then 0 else burnt) else fuel c in
  {| x := x c + vx';
     y := y c + vy';
     vx := vx';
     vy := vy';
     angle := angle c;
     fuel := fuel';
     gravity := gravity c;
     thrust := thrust c;
     fuelConsumptionRate := fuelConsumptionRate c |}.

(** A sequence of calls of [update], one per frame. *)
Definition updates `{M : Math} (calls : list (Q * bool)) (self : t) : t :=
  fold_left (fun l call => update (fst call) (snd call) l) calls self.

End Lander.

(* ===================================================================== *)
(** * Landing evaluation and the frame of the main loop *)
(* ===================================================================== *)

Inductive GameState : Type := menu | playing | landed | crashed.

(** [lz.rect.left <= lander.x <= lz.rect.right]. *)
Definition over_zone (x : Q) (lz : LandingZone) : bool :=
  Qle_bool (inject_Z (Rect.left (rect lz))) x
  && Qle_bool x (inject_Z (Rect.right (rect lz))).

(** The [for lz in landing_zones] loop with its [break]. *)
Definition in_zone (x : Q) (landing_zones : list LandingZone)
  : option LandingZone :=
  find (over_zone x) landing_zones.

(** Collision detection with the terrain, in the [playing] state: the
    lander, the score and the game state after it. *)
Definition collision `{M : Math} (terrain_points : list point)
    (landing_zones : list LandingZone) (lander : Lander.t) (score : Z)
  : result (Lander.t * Z * GameState) :=
  ground_y <- get_terrain_height (Lander.x lander) terrain_points 20 ;;
  let lander_bottom := Lander.y lander + 15 in
  if Qle_bool ground_y lander_bottom then
    let speed := hypot (Lander.vx lander) (Lander.vy lander) in
    let outcome :=
      match in_zone (Lander.x lander) landing_zones with
      | Some lz =>
          if Qle_bool speed (maxLandingSpeed lz) then
            let bonus := Z.max 0 (Py.int ((maxLandingSpeed lz - speed) * 50)) in
            ((score + (Py.int (Lander.fuel lander) + bonus))%Z, landed)
          else (score, crashed)
      | None => (score, crashed)
      end in
    let lander := Lander.set_vy lander 0 in
    let lander := Lander.set_vx lander 0 in
    Ok (lander, fst outcome, snd outcome)
  else Ok (lander, score, playing).

Record Keys : Type := { K_LEFT : bool; K_RIGHT : bool; K_SPACE : bool }.

Record Session : Type := {
  s_lander : Lander.t;
  s_terrain_points : list point;
  s_landing_zones : list LandingZone;
  s_score : Z;
  s_game_state : GameState
}.

(** The [if game_state == "playing":] block of the main loop (lines 283 to
    316), for one frame: rotation, update, clamping and collision detection.
    The event handling of the loop ([QUIT], restart on [R]) and the drawing
    are not part of it. *)
Definition frame `{M : Math} (dt : Q) (keys : Keys) (s : Session) : result Session :=
  match s_game_state s with
  | playing =>
      let lander := s_lander s in
      let lander :=
        if K_LEFT keys
        then Lander.set_angle lander (Lander.angle lander + 100 * dt) else lander in
      let lander :=
        if K_RIGHT keys
        then Lander.set_angle lander (Lander.angle lander - 100 * dt) else lander in
      let thrusting := K_SPACE keys in
      let lander := Lander.update dt thrusting lander in
      let lander :=
        if Qlt_bool (Lander.x lander) 0 then Lander.set_x lander 0 else lander in
      let lander :=
        if Qlt_bool (inject_Z WIDTH) (Lander.x lander)
        then Lander.set_x lander (inject_Z WIDTH) else lander in
      ' (lander, score, game_state) <-
        collision (s_terrain_points s) (s_landing_zones s) lander (s_score s) ;;
      Ok {| s_lander := lander;
            s_terrain_points := s_terrain_points s;
            s_landing_zones := s_landing_zones s;
            s_score := score;
            s_game_state := game_state |}
  | _ => Ok s
  end.

(** The session after generation, and a run of the main loop over the
    inputs of successive frames. *)
Definition new_session (gravity : Q) (terrain_points : list point)
    (landing_zones : list LandingZone) : Session :=
  {| s_lander := Lander.init gravity;
     s_terrain_points := terrain_points;
     s_landing_zones := landing_zones;
     s_score := 0;
     s_game_state := playing |}.

Fixpoint frames `{M : Math} (inputs : list (Q * Keys)) (s : Session)
  : result Session :=
  match inputs with
  | [] => Ok s
  | (dt, keys) :: inputs' => s' <- frame dt keys s ;; frames inputs' s'
  end.

(** A rational stand-in of the [math] module for test runs: exact at the
    headings 0, 90, 180 and 270 degrees (angles are kept in degrees) and on
    velocities along one axis. *)
Definition axis_math : Math :=
  {| radians := fun a => a;
     sin := fun a => if Qeq_bool a 90 then 1 else if Qeq_bool a 270 then -1 else 0;
     cos := fun a => if Qeq_bool a 0 then 1 else if Qeq_bool a 180 then -1 else 0;
     hypot := fun a b => Qabs a + Qabs b |}.

(** The x-range of a pad, as recorded in [used_zones]. *)
Definition zone_span (lz : LandingZone) : Z * Z :=
  (Rect.left (rect lz), Rect.right (rect lz)).

(** Two x-ranges are strictly disjoint. *)
Definition apart (a b : Z * Z) : Prop :=
  (snd a < fst b)%Z \/ (fst a > snd b)%Z.

(** A pad has a width of [80 .. 150] and keeps 50 units from both screen
    edges. *)
Definition well_placed (lz : LandingZone) : Prop :=
  (80 <= Rect.width (rect lz) <= 150)%Z
  /\ (50 <= Rect.left (rect lz))%Z
  /\ (Rect.right (rect lz) <= WIDTH - 50)%Z.

Definition pairwise_apart (zones : list LandingZone) : Prop :=
  forall i j a b,
    i <> j -> nth_error zones i = Some a -> nth_error zones j = Some b ->
    apart (zone_span a) (zone_span b).

(** The invariant of the placement loop. *)
Record gen_inv (st : GenState) : Prop := {
  inv_grid : grid_profile (terrain_points st);
  inv_used : used_zones st = map zone_span (landing_zones st);
  inv_placed : Forall well_placed (landing_zones st);
  inv_apart : pairwise_apart (landing_zones st);
  inv_attempts : (0 <= attempts st <= 20)%Z;
  inv_count : (length (landing_zones st) <= 3)%nat
}.

(** The state a rejected candidate leaves: only [attempts] and the random
    source have moved. *)
Definition rejected (st : GenState) (g : Rng) : GenState :=
  {| terrain_points := terrain_points st;
     landing_zones := landing_zones st;
     attempts := (attempts st + 1)%Z;
     used_zones := used_zones st;
     rng := g |}.

(** The mean of the samples of a pad, and the state an accepted candidate
    leaves. *)
Definition pad_mean (samples : list Q) : Q :=
  Py.sum samples / inject_Z (Z.of_nat (length samples)).

Definition accepted (st : GenState) (pad_width pad_x : Z) (pad_y : Q) (g : Rng)
  : GenState :=
  {| terrain_points :=
       flatten pad_x (pad_x + pad_width) pad_y (terrain_points st);
     landing_zones :=
       landing_zones st ++
       [{| rect := Rect.make pad_x (Py.int (pad_y - 10)) pad_width 10;
           maxLandingSpeed := 2;
           label := "Pad" |}];
     attempts := (attempts st + 1)%Z;
     used_zones := used_zones st ++ [(pad_x, (pad_x + pad_width)%Z)];
     rng := g |}.

(** The state before the first attempt. *)
Definition placement_start (smoothed : list point) (g : Rng) : GenState :=
  {| terrain_points := smoothed;
     landing_zones := [];
     attempts := 0;
     used_zones := [];
     rng := g |}.

(** Random sources for test runs.  [flat_source]: every draw is the lowest
    value, so the terrain is flat at 500 and every candidate is the pad
    [50, 130].  [touching_source]: as before, but the second candidate is
    the pad [130, 210].  [bumpy_source]: as [flat_source], but the sample at
    x = 60 is drawn at 501. *)
Definition flat_source : Rng := rng_of_list [].

Definition touching_source : Rng :=
  rng_of_list (repeat 0%Z 61 ++ [0; 0; 0; 80]%Z).

Definition bumpy_source : Rng :=
  rng_of_list [0; 0; 0; 1]%Z.

(** Sample data for test runs: the flat profile at height 500, the state
    before the first attempt on it, a state with the pad [50, 130] placed
    whose next candidate is the pad [130, 210], a pad over [550, 650], and
    a craft touching down on it at speed 1 with 47.6 units of fuel. *)
Definition flat_profile : list point := map (fun x => (x, 500)) grid_xs.

Definition flat_start : GenState := placement_start flat_profile flat_source.

Definition one_pad_state : GenState :=
  {| terrain_points := flat_profile;
     landing_zones := [LandingZone_init 50 490 80 10 2 "Pad"];
     attempts := 1;
     used_zones := [(50, 130)%Z];
     rng := rng_of_list [0; 80]%Z |}.

Definition sample_pad : LandingZone := LandingZone_init 550 490 100 10 2 "Pad".

Definition sample_lander : Lander.t :=
  Lander.make 600 490 0 1 0 (476 # 10) (1 # 10) (2 # 10) 20.

(** A pad's x-range contains [x], both ends included; [lz] is the first pad
    of the list, in creation order, whose x-range contains [x]. *)
Definition contains (lz : LandingZone) (x : Q) : Prop :=
  inject_Z (Rect.left (rect lz)) <= x /\ x <= inject_Z (Rect.right (rect lz)).

Definition first_containing (x : Q) (zones : list LandingZone) (lz : LandingZone)
  : Prop :=
  exists before after,
    zones = before ++ lz :: after
    /\ contains lz x
    /\ forall z, In z before -> ~ contains z x.

(* ===================================================================== *)
(** * Further notions on profiles *)
(* ===================================================================== *)

(** Every sample of the profile has its height in [lo, hi]. *)
Definition bounded (lo hi : Q) (pts : list point) : Prop :=
  Forall (fun p : point => lo <= snd p /\ snd p <= hi) pts.

(** A one-sample profile, and a profile of 60 samples: the grid without its
    last sample. *)
Definition lone_profile : list point := [(0%Z, 5)].

Definition clipped_profile : list point := removelast flat_profile.

(** Four samples on a line. *)
Definition ramp : list point := [(0%Z, 0); (20%Z, 1); (40%Z, 2); (60%Z, 3)].

(* ===================================================================== *)
(** * Further notions on generation *)
(* ===================================================================== *)

(** A pad sits flush on the terrain: it is 10 thick, has the landing speed
    2 and the label "Pad", and there is a height pad_y in [500, 700] that
    every terrain sample within the pad's x-range has and whose distance of
    10, rounded down, is the ordinate of the rectangle. *)
Definition flush (terrain : list point) (lz : LandingZone) : Prop :=
  Rect.height (rect lz) = 10%Z
  /\ maxLandingSpeed lz = 2
  /\ label lz = "Pad"%string
  /\ exists pad_y,
       500 <= pad_y /\ pad_y <= 700
       /\ Rect.y (rect lz) = Qfloor (pad_y - 10)
       /\ forall tx ty,
            In (tx, ty) terrain ->
            (Rect.left (rect lz) <= tx <= Rect.right (rect lz))%Z ->
            ty = pad_y.

(** What the placement loop keeps besides [gen_inv], for a generation that
    started on the source [g]. *)
Record gen_more (g : Rng) (st : GenState) : Prop := {
  more_bounded : bounded 500 700 (terrain_points st);
  more_flush : Forall (flush (terrain_points st)) (landing_zones st);
  more_first : (0 < attempts st)%Z -> (1 <= length (landing_zones st))%nat;
  more_count : (Z.of_nat (length (landing_zones st)) <= attempts st)%Z;
  more_draws : draws (rng st) = draws g;
  more_cursor :
    Z.of_nat (cursor (rng st)) = (Z.of_nat (cursor g) + 61 + 2 * attempts st)%Z
}.

(* ===================================================================== *)
(** * Further notions on the craft *)
(* ===================================================================== *)

(** The same calls of [update] with the thrust key released. *)
Definition released (calls : list (Q * bool)) : list (Q * bool) :=
  map (fun call => (fst call, false)) calls.

(** A craft that has burnt all its fuel. *)
Definition dry_lander : Lander.t :=
  Lander.make 600 100 0 0 0 0 (1 # 10) (2 # 10) 20.

(* ===================================================================== *)
(** * Further notions on the main loop *)
(* ===================================================================== *)

(** The craft with its motion stopped, as after a contact. *)
Definition stopped (lander : Lander.t) : Lander.t :=
  Lander.set_vx (Lander.set_vy lander 0) 0.

(** The craft of a frame when collision detection starts: rotated by the
    keys, updated, and clamped to the screen. *)
Definition moved `{M : Math} (dt : Q) (keys : Keys) (lander : Lander.t)
  : Lander.t :=
  let lander :=
    if K_LEFT keys
    then Lander.set_angle lander (Lander.angle lander + 100 * dt) else lander in
  let lander :=
    if K_RIGHT keys
    then Lander.set_angle lander (Lander.angle lander - 100 * dt) else lander in
  let lander := Lander.update dt (K_SPACE keys) lander in
  let lander :=
    if Qlt_bool (Lander.x lander) 0 then Lander.set_x lander 0 else lander in
  if Qlt_bool (inject_Z WIDTH) (Lander.x lander)
  then Lander.set_x lander (inject_Z WIDTH) else lander.

(** Sample sessions and keys: a session on the flat profile with the sample
    pad, the same session after a landing, every key held, no key held. *)
Definition sample_session : Session :=
  new_session (1 # 10) flat_profile [sample_pad].

Definition landed_session : Session :=
  {| s_lander := stopped sample_lander;
     s_terrain_points := flat_profile;
     s_landing_zones := [sample_pad];
     s_score := 97;
     s_game_state := landed |}.

Definition all_keys : Keys :=
  {| K_LEFT := true; K_RIGHT := true; K_SPACE := true |}.

Definition no_keys : Keys :=
  {| K_LEFT := false; K_RIGHT := false; K_SPACE := false |}.

(* ===================================================================== *)
(** * The custom gravity prompt *)
(* ===================================================================== *)

(** [custom_gravity_input] without its drawing: the events that
    [pygame.event.get()] delivers, batch after batch, are one sequence;
    [float] is Python's conversion of the typed text, [None] standing for
    ValueError, into whatever type [F] of floats. *)
Module Prompt.

Inductive key : Type := K_RETURN | K_BACKSPACE | K_OTHER.

Inductive event : Type :=
| QUIT
| KEYDOWN (k : key) (unicode : string)
| OTHER.

(** How the prompt stands: it has returned [val], the process has exited,
    or it waits for events with [input_str] typed so far. *)
Inductive outcome (F : Type) : Type :=
| Returned (val : F)
| Exited
| Waiting (input_str : string).

Arguments Returned {F} val.
Arguments Exited {F}.
Arguments Waiting {F} input_str.

(** [s[:-1]]. *)
Fixpoint drop_last (s : string) : string :=
  match s with
  | EmptyString => EmptyString
  | String c rest =>
      match rest with
      | EmptyString => EmptyString
      | String _ _ => String c (drop_last rest)
      end
  end.

(** The event loop from a given [input_str]. *)
Fixpoint loop {F : Type} (float : string -> option F) (events : list event)
    (input_str : string) : outcome F :=
  match events with
  | [] => Waiting input_str
  | QUIT :: _ => Exited
  | KEYDOWN K_RETURN _ :: events' =>
      match float input_str with
      | Some val => Returned val
      | None => loop float events' EmptyString
      end
  | KEYDOWN K_BACKSPACE _ :: events' => loop float events' (drop_last input_str)
  | KEYDOWN K_OTHER unicode :: events' =>
      loop float events' (String.append input_str unicode)
  | OTHER :: events' => loop float events' input_str
  end.

Definition custom_gravity_input {F : Type} (float : string -> option F)
    (events : list event) : outcome F :=
  loop float events EmptyString.

(** The key presses that type the characters [cs], one each. *)
Definition typing (cs : list Ascii.ascii) : list event :=
  map (fun c => KEYDOWN K_OTHER (String c EmptyString)) cs.

(** A toy conversion for test runs: only the text "1" is a number. *)
Definition only_one (s : string) : option Z :=
  if String.eqb s "1" then Some 1%Z else None.

End Prompt.

(* ===================================================================== *)
(** * Facts on the primitives *)
(* ===================================================================== *)

Lemma index_of_nat {A : Type} (l : list A) (k : nat) (a : A) :
  nth_error l k = Some a -> Py.index l (Z.of_nat k) = Ok a.
Proof.
  intros Hk. unfold Py.index.
  destruct (Z.ltb_spec (Z.of_nat k) 0) as [Hneg | _]; [lia |].
  destruct (Z.ltb_spec (Z.of_nat k) 0) as [Hneg | _]; [lia |].
  now rewrite Nat2Z.id, Hk.
Qed.

Lemma index_from_end {A : Type} (l : list A) (k : nat) (a : A) :
  nth_error l k = Some a -> S k = length l -> Py.index l (-1) = Ok a.
Proof.
  intros Hk Hlen. unfold Py.index. cbn [Z.ltb Z.compare].
  destruct (Z.ltb_spec (Z.of_nat (length l) + -1) 0) as [Hneg | _]; [lia |].
  replace (Z.to_nat (Z.of_nat (length l) + -1)) with k by lia.
  now rewrite Hk.
Qed.

Lemma int_nonneg (q : Q) : 0 <= q -> Py.int q = Qfloor q.
Proof.
  destruct q as [n d]. unfold Qle, Py.int, Qfloor. cbn. intros Hn.
  apply Z.quot_div_nonneg; lia.
Qed.

Lemma Qlt_bool_false (a b : Q) : Qlt_bool a b = false <-> b <= a.
Proof.
  unfold Qlt_bool. rewrite negb_false_iff. apply Qle_bool_iff.
Qed.

Lemma range_length (a b s : Z) :
  length (Py.range a b s) = Z.to_nat ((b - a + s - 1) / s).
Proof. unfold Py.range. now rewrite length_map, length_seq. Qed.

Lemma range_nth (a b s : Z) (k : nat) :
  (k < length (Py.range a b s))%nat ->
  nth_error (Py.range a b s) k = Some (a + s * Z.of_nat k)%Z.
Proof.
  rewrite range_length. intros Hk. unfold Py.range.
  rewrite nth_error_map, nth_error_seq.
  destruct (Nat.ltb_spec k (Z.to_nat ((b - a + s - 1) / s))); [reflexivity | lia].
Qed.

Lemma range_In (a b s x : Z) :
  In x (Py.range a b s) ->
  exists k, x = (a + s * Z.of_nat k)%Z /\ (k < length (Py.range a b s))%nat.
Proof.
  intros Hin. rewrite range_length. unfold Py.range in Hin.
  apply in_map_iff in Hin. destruct Hin as [k [Hx Hk]].
  apply in_seq in Hk. exists k. split; [now symmetry | lia].
Qed.

Lemma mapM_ok {A B : Type} (f : A -> result B) (l : list A) :
  (forall a, In a l -> exists b, f a = Ok b) ->
  exists bs, mapM f l = Ok bs /\ length bs = length l
             /\ forall k a, nth_error l k = Some a ->
                  exists b, nth_error bs k = Some b /\ f a = Ok b.
Proof.
  induction l as [| a l IH]; intros Hall.
  - exists []. repeat split. intros [|k] a Hk; discriminate.
  - destruct (Hall a (or_introl eq_refl)) as [b Hb].
    destruct IH as [bs [Hbs [Hlen Hnth]]].
    { intros a' Ha'. apply Hall. now right. }
    exists (b :: bs). cbn. rewrite Hb. cbn. rewrite Hbs. cbn.
    repeat split; [now rewrite Hlen |].
    intros [|k] a' Hk; cbn in *.
    + injection Hk as <-. now exists b.
    + now apply Hnth.
Qed.

(* ===================================================================== *)
(** * Facts on grid profiles *)
(* ===================================================================== *)

Lemma grid_xs_seq : grid_xs = map (fun k => (20 * Z.of_nat k)%Z) (seq 0 61).
Proof. reflexivity. Qed.

Lemma grid_length (pts : list point) : grid_profile pts -> length pts = 61%nat.
Proof.
  intros Hg. apply (f_equal (@length Z)) in Hg.
  now rewrite length_map in Hg.
Qed.

Lemma grid_nth (pts : list point) (k : nat) (p : point) :
  grid_profile pts -> nth_error pts k = Some p ->
  (k < 61)%nat /\ fst p = (20 * Z.of_nat k)%Z.
Proof.
  intros Hg Hk.
  assert (Hlt : (k < 61)%nat).
  { rewrite <- (grid_length pts Hg). apply nth_error_Some. congruence. }
  split; [exact Hlt |].
  assert (Hm : nth_error (map fst pts) k = Some (fst p))
    by (now apply map_nth_error).
  rewrite Hg, grid_xs_seq, nth_error_map, nth_error_seq in Hm.
  destruct (Nat.ltb_spec k 61); [| lia].
  cbn in Hm. now injection Hm.
Qed.

Lemma grid_sample (pts : list point) (k : nat) :
  grid_profile pts -> (k < 61)%nat ->
  exists p, nth_error pts k = Some p /\ fst p = (20 * Z.of_nat k)%Z.
Proof.
  intros Hg Hk. destruct (nth_error pts k) as [p |] eqn:E.
  - exists p. split; [reflexivity | now apply (grid_nth pts k p Hg)].
  - apply nth_error_None in E. rewrite (grid_length pts Hg) in E. lia.
Qed.

(* ===================================================================== *)
(** * The height field *)
(* ===================================================================== *)

Lemma div20 (x : Q) : 20 * (x / 20) == x.
Proof. apply Qmult_div_r. discriminate. Qed.

Lemma floor_index_bounds (x : Q) :
  0 < x -> x < inject_Z WIDTH -> (0 <= Qfloor (x / 20) < 60)%Z.
Proof.
  intros H0 HW. change (inject_Z WIDTH) with 1200 in HW.
  assert (Hq := div20 x). split.
  - change 0%Z with (Qfloor 0). apply Qfloor_resp_le. lra.
  - rewrite Zlt_Qlt. apply Qle_lt_trans with (x / 20); [apply Qfloor_le |].
    change (inject_Z 60) with 60. lra.
Qed.

Lemma height_left (pts : list point) (x : Q) (p : point) :
  nth_error pts 0 = Some p -> x <= 0 ->
  get_terrain_height x pts 20 = Ok (snd p).
Proof.
  intros Hp Hx. unfold get_terrain_height.
  apply Qle_bool_iff in Hx. rewrite Hx.
  pose proof (index_of_nat pts 0 p Hp) as Hi.
  change (Z.of_nat 0) with 0%Z in Hi. now rewrite Hi.
Qed.

Lemma height_right (pts : list point) (x : Q) (k : nat) (p : point) :
  nth_error pts k = Some p -> S k = length pts -> inject_Z WIDTH <= x ->
  get_terrain_height x pts 20 = Ok (snd p).
Proof.
  intros Hp Hlen Hx. unfold get_terrain_height.
  destruct (Qle_bool x 0) eqn:E0.
  - apply Qle_bool_iff in E0. unfold WIDTH in Hx.
    assert (inject_Z 1200 == 1200) by reflexivity. lra.
  - apply Qle_bool_iff in Hx. rewrite Hx.
    now rewrite (index_from_end pts k p Hp Hlen).
Qed.

Lemma height_between (pts : list point) (x : Q) :
  grid_profile pts -> 0 < x -> x < inject_Z WIDTH ->
  let idx := Z.to_nat (Qfloor (x / 20)) in
  exists p1 p2,
    nth_error pts idx = Some p1 /\ nth_error pts (S idx) = Some p2
    /\ (fst p2 - fst p1 = 20)%Z
    /\ inject_Z (fst p1) <= x /\ x < inject_Z (fst p2)
    /\ get_terrain_height x pts 20
       = Ok (let t := (x - inject_Z (fst p1)) / inject_Z (fst p2 - fst p1) in
             snd p1 * (1 - t) + snd p2 * t).
Proof.
  intros Hg H0 HW idx.
  destruct (floor_index_bounds x H0 HW) as [Hlo Hhi].
  destruct (grid_sample pts idx Hg) as [p1 [Hp1 Hx1]]; [subst idx; lia |].
  destruct (grid_sample pts (S idx) Hg) as [p2 [Hp2 Hx2]]; [subst idx; lia |].
  assert (Hidx : Z.of_nat idx = Qfloor (x / 20)) by (subst idx; lia).
  assert (Hd : (fst p2 - fst p1 = 20)%Z) by lia.
  exists p1, p2. repeat split; try assumption.
  - (* p1.x <= x *)
    rewrite Hx1, Hidx, inject_Z_mult. change (inject_Z 20) with 20.
    assert (Hf := Qfloor_le (x / 20)). assert (Hq := div20 x). lra.
  - (* x < p2.x *)
    rewrite Hx2. replace (20 * Z.of_nat (S idx))%Z with (20 * (Qfloor (x / 20) + 1))%Z by lia.
    rewrite inject_Z_mult. change (inject_Z 20) with 20.
    assert (Hf := Qlt_floor (x / 20)). assert (Hq := div20 x). lra.
  - (* the interpolation *)
    unfold get_terrain_height.
    destruct (Qle_bool x 0) eqn:E0; [apply Qle_bool_iff in E0; lra |].
    destruct (Qle_bool (inject_Z WIDTH) x) eqn:EW; [apply Qle_bool_iff in EW; lra |].
    unfold Py.floordiv. cbn [Z.eqb bind].
    change (inject_Z 20) with 20. rewrite <- Hidx.
    rewrite (index_of_nat pts idx p1 Hp1). cbn [bind].
    rewrite (grid_length pts Hg).
    replace (Z.min (Z.of_nat idx + 1) (Z.of_nat 61 - 1)) with (Z.of_nat (S idx)) by lia.
    rewrite (index_of_nat pts (S idx) p2 Hp2). cbn [bind].
    unfold Py.div. rewrite Hd. reflexivity.
Qed.

Lemma height_total (pts : list point) (x : Q) :
  grid_profile pts -> exists y, get_terrain_height x pts 20 = Ok y.
Proof.
  intros Hg.
  destruct (grid_sample pts 0 Hg) as [pf [Hpf _]]; [lia |].
  destruct (grid_sample pts 60 Hg) as [pl [Hpl _]]; [lia |].
  destruct (Qlt_le_dec 0 x) as [H0 | H0].
  - destruct (Qlt_le_dec x (inject_Z WIDTH)) as [HW | HW].
    + destruct (height_between pts x Hg H0 HW) as [p1 [p2 H]].
      destruct H as [_ [_ [_ [_ [_ Hh]]]]]. eexists. exact Hh.
    + eexists. apply (height_right pts x 60 pl Hpl); [| exact HW].
      now rewrite (grid_length pts Hg).
  - eexists. now apply (height_left pts x pf).
Qed.

(** C2.  On a height profile with samples at x = 0, 20, ..., 1200,
    [get_terrain_height(x)] always returns a value (no index error and no
    division by zero); it is the first sample's y for x <= 0, the last
    sample's y for x >= WIDTH, and for 0 < x < WIDTH it is
    p1.y*(1-t) + p2.y*t with p1, p2 the samples at floor(x/20) and the next
    index, which bracket x, and t = (x - p1.x)/(p2.x - p1.x) with
    p2.x - p1.x = 20; at the abscissa of a sample it is that sample's y. *)
Theorem get_terrain_height_contract (pts : list point) (Hgrid : grid_profile pts) :
  (forall x, x <= 0 ->
     exists p, nth_error pts 0 = Some p
               /\ get_terrain_height x pts 20 = Ok (snd p))
  /\ (forall x, inject_Z WIDTH <= x ->
        exists p, nth_error pts (length pts - 1) = Some p
                  /\ get_terrain_height x pts 20 = Ok (snd p))
  /\ (forall x, 0 < x -> x < inject_Z WIDTH ->
        let idx := Z.to_nat (Qfloor (x / 20)) in
        exists p1 p2,
          nth_error pts idx = Some p1 /\ nth_error pts (S idx) = Some p2
          /\ inject_Z (fst p1) <= x /\ x < inject_Z (fst p2)
          /\ ~ inject_Z (fst p2 - fst p1) == 0
          /\ get_terrain_height x pts 20
             = Ok (let t := (x - inject_Z (fst p1)) / inject_Z (fst p2 - fst p1) in
                   snd p1 * (1 - t) + snd p2 * t))
  /\ (forall k p x, nth_error pts k = Some p -> x == inject_Z (fst p) ->
        exists y, get_terrain_height x pts 20 = Ok y /\ y == snd p)
  /\ (forall x, exists y, get_terrain_height x pts 20 = Ok y).
Proof.
  assert (Hlen := grid_length pts Hgrid).
  destruct (grid_sample pts 0 Hgrid) as [pf [Hpf _]]; [lia |].
  destruct (grid_sample pts 60 Hgrid) as [pl [Hpl Hxl]]; [lia |].
  assert (Hleft : forall x, x <= 0 -> get_terrain_height x pts 20 = Ok (snd pf))
    by (intros x Hx; now apply height_left).
  assert (Hright : forall x, inject_Z WIDTH <= x ->
                             get_terrain_height x pts 20 = Ok (snd pl)).
  { intros x Hx. apply (height_right pts x 60 pl Hpl); [lia | exact Hx]. }
  repeat apply conj.
  - intros x Hx. exists pf. auto.
  - intros x Hx. exists pl. rewrite Hlen. auto.
  - intros x H0 HW idx.
    destruct (height_between pts x Hgrid H0 HW) as [p1 [p2 H]].
    destruct H as [Hp1 [Hp2 [Hd [Hle [Hlt Hh]]]]].
    exists p1, p2. repeat split; try assumption.
    rewrite Hd. discriminate.
  - intros k p x Hk Hx.
    destruct (grid_nth pts k p Hgrid Hk) as [Hk61 Hfst].
    destruct (Qlt_le_dec 0 x) as [H0 | H0].
    + destruct (Qlt_le_dec x (inject_Z WIDTH)) as [HW | HW].
      * destruct (height_between pts x Hgrid H0 HW) as [p1 [p2 H]].
        destruct H as [Hp1 [_ [Hd [_ [_ Hh]]]]].
        assert (Hfl : Qfloor (x / 20) = Z.of_nat k).
        { assert (E : x / 20 == inject_Z (Z.of_nat k)).
          { rewrite Hx, Hfst, inject_Z_mult. change (inject_Z 20) with 20. field. }
          rewrite E. apply Qfloor_Z. }
        rewrite Hfl, Nat2Z.id, Hk in Hp1. injection Hp1 as <-.
        eexists. split; [exact Hh |].
        cbv zeta. rewrite Hd, Hx. change (inject_Z 20) with 20. field.
      * exists (snd pl). split; [now apply Hright |].
        assert (k = 60%nat).
        { assert (Hc : inject_Z 1200 <= inject_Z (20 * Z.of_nat k)).
          { rewrite <- Hfst, <- Hx. exact HW. }
          rewrite <- Zle_Qle in Hc. lia. }
        subst k. rewrite Hpl in Hk. now injection Hk as <-.
    + exists (snd pf). split; [now apply Hleft |].
      assert (k = 0%nat).
      { assert (Hc : inject_Z (20 * Z.of_nat k) <= inject_Z 0).
        { rewrite <- Hfst, <- Hx. exact H0. }
        rewrite <- Zle_Qle in Hc. lia. }
      subst k. rewrite Hpf in Hk. now injection Hk as <-.
  - intros x. now apply height_total.
Qed.

(* ===================================================================== *)
(** * Craft dynamics: the update step *)
(* ===================================================================== *)

Section Dynamics.

Context `{M : Math}.

Lemma update_closed_form (dt : Q) (thrusting : bool) (c : Lander.t) :
  Lander.update dt thrusting c = Lander.update_spec dt thrusting c.
Proof.
  destruct c as [x y vx vy angle fuel gravity thrust rate].
  unfold Lander.update, Lander.update_spec. cbn.
  destruct (thrusting && Qlt_bool 0 fuel); cbn; [| reflexivity].
  destruct (Qlt_bool (fuel - rate * dt) 0); reflexivity.
Qed.

Lemma not_burning (thrusting : bool) (c : Lander.t) :
  thrusting = false \/ Lander.fuel c <= 0 ->
  thrusting && Qlt_bool 0 (Lander.fuel c) = false.
Proof.
  intros [-> | Hle]; [reflexivity |].
  apply Qlt_bool_false in Hle. rewrite Hle. apply andb_false_r.
Qed.

(** C3.  One call of [update] is the step of the specification: gravity is
    added to vy without a dt factor; when thrusting with fuel > 0 the
    thrust components -thrust*sin(rad) and -thrust*cos(rad) are added to
    vx and vy without a dt factor and the fuel is decremented by
    fuelConsumptionRate * dt and clamped at 0; then x and y advance by the
    new vx and vy without a dt factor.  In particular the position and the
    velocity after the step do not depend on dt. *)
Theorem update_is_spec_step (dt : Q) (thrusting : bool) (c : Lander.t) :
  Lander.update dt thrusting c = Lander.update_spec dt thrusting c
  /\ forall dt' : Q,
       Lander.vx (Lander.update dt thrusting c) = Lander.vx (Lander.update dt' thrusting c)
       /\ Lander.vy (Lander.update dt thrusting c) = Lander.vy (Lander.update dt' thrusting c)
       /\ Lander.x (Lander.update dt thrusting c) = Lander.x (Lander.update dt' thrusting c)
       /\ Lander.y (Lander.update dt thrusting c) = Lander.y (Lander.update dt' thrusting c).
Proof.
  split; [apply update_closed_form |].
  intros dt'. rewrite !update_closed_form. unfold Lander.update_spec. cbn.
  destruct (thrusting && Qlt_bool 0 (Lander.fuel c)); repeat split.
Qed.

Lemma update_fuel_nonneg (dt : Q) (thrusting : bool) (c : Lander.t) :
  0 <= Lander.fuel c -> 0 <= Lander.fuel (Lander.update dt thrusting c).
Proof.
  intros Hf. rewrite update_closed_form.
  unfold Lander.update_spec. cbn.
  destruct (thrusting && Qlt_bool 0 (Lander.fuel c)); [| exact Hf].
  destruct (Qlt_bool (Lander.fuel c - Lander.fuelConsumptionRate c * dt) 0) eqn:E.
  - apply Qle_refl.
  - now apply Qlt_bool_false in E.
Qed.

(** C7.  From a craft with fuel >= 0, the fuel after [update] is >= 0, for
    every thrusting flag and every dt (of any sign, so in particular for
    dt >= 0), and it stays >= 0 across every sequence of calls. *)
Theorem fuel_never_negative (c : Lander.t) (Hfuel : 0 <= Lander.fuel c) :
  (forall dt thrusting, 0 <= Lander.fuel (Lander.update dt thrusting c))
  /\ (forall calls, 0 <= Lander.fuel (Lander.updates calls c)).
Proof.
  split.
  - intros dt thrusting. now apply update_fuel_nonneg.
  - intros calls. revert c Hfuel. unfold Lander.updates.
    induction calls as [| [dt thrusting] calls IH]; intros c Hfuel; cbn.
    + exact Hfuel.
    + apply IH. now apply update_fuel_nonneg.
Qed.

(** C10.  [update] leaves the heading angle and the constants gravity,
    thrust and fuelConsumptionRate unchanged (x, y, vx, vy and fuel are
    the only other attributes); when thrusting is false or fuel <= 0, fuel
    and vx are unchanged and vy becomes vy + gravity. *)
Theorem update_frame_effect (dt : Q) (thrusting : bool) (c : Lander.t) :
  let c' := Lander.update dt thrusting c in
  Lander.angle c' = Lander.angle c
  /\ Lander.gravity c' = Lander.gravity c
  /\ Lander.thrust c' = Lander.thrust c
  /\ Lander.fuelConsumptionRate c' = Lander.fuelConsumptionRate c
  /\ (thrusting = false \/ Lander.fuel c <= 0 ->
      Lander.fuel c' = Lander.fuel c
      /\ Lander.vx c' = Lander.vx c
      /\ Lander.vy c' = Lander.vy c + Lander.gravity c).
Proof.
  cbv zeta. rewrite update_closed_form.
  unfold Lander.update_spec. cbn.
  repeat (split; [reflexivity |]).
  intros Hidle. rewrite (not_burning thrusting c Hidle). repeat split.
Qed.

End Dynamics.

(* ===================================================================== *)
(** * Landing evaluation *)
(* ===================================================================== *)

Lemma over_zone_iff (x : Q) (lz : LandingZone) :
  over_zone x lz = true <-> contains lz x.
Proof.
  unfold over_zone, contains. rewrite andb_true_iff, !Qle_bool_iff. tauto.
Qed.

Lemma in_zone_first (x : Q) (zones : list LandingZone) (lz : LandingZone) :
  in_zone x zones = Some lz <-> first_containing x zones lz.
Proof.
  unfold in_zone, first_containing.
  induction zones as [| z zs IH]; cbn.
  - split; [discriminate |].
    intros [before [after [Habs _]]]. now destruct before.
  - destruct (over_zone x z) eqn:E.
    + split.
      * intros [= <-]. exists [], zs. repeat split; try apply over_zone_iff, E.
        intros z' [].
      * intros [[| b before] [after [Heq [_ Hnone]]]]; cbn in Heq.
        -- now injection Heq as ->.
        -- injection Heq as <- _. exfalso.
           apply (Hnone z (or_introl eq_refl)). now apply over_zone_iff.
    + rewrite IH. split.
      * intros [before [after [-> [Hc Hnone]]]].
        exists (z :: before), after. repeat split; try apply Hc.
        intros z' [<- | Hin]; [| now apply Hnone].
        rewrite <- over_zone_iff. congruence.
      * intros [[| b before] [after [Heq [Hc Hnone]]]]; cbn in Heq.
        -- injection Heq as -> _. apply over_zone_iff in Hc. congruence.
        -- injection Heq as <- ->. exists before, after. repeat split; try apply Hc.
           intros z' Hin. apply Hnone. now right.
Qed.

Lemma first_containing_unique (x : Q) (zones : list LandingZone) (a b : LandingZone) :
  first_containing x zones a -> first_containing x zones b -> a = b.
Proof.
  rewrite <- !in_zone_first. congruence.
Qed.

Section Landing.

Context `{M : Math}.

Lemma collision_fuel (terrain_points : list point) (landing_zones : list LandingZone)
      (lander lander' : Lander.t) (score score' : Z) (state' : GameState) :
  collision terrain_points landing_zones lander score = Ok (lander', score', state') ->
  Lander.fuel lander' = Lander.fuel lander.
Proof.
  unfold collision.
  destruct (get_terrain_height (Lander.x lander) terrain_points 20) as [gy |];
    [| discriminate].
  cbn [bind]. destruct (Qle_bool gy (Lander.y lander + 15)); now intros [= <- _ _].
Qed.

Lemma frame_fuel_nonneg (dt : Q) (keys : Keys) (s s' : Session) :
  0 <= Lander.fuel (s_lander s) -> frame dt keys s = Ok s' ->
  0 <= Lander.fuel (s_lander s').
Proof.
  intros Hf. unfold frame. destruct (s_game_state s); try (now intros [= <-]).
  match goal with
  | |- context [collision ?t ?z ?l ?sc] =>
      destruct (collision t z l sc) as [[[l' sc'] st'] |] eqn:Hc; [| discriminate];
      assert (Hl : 0 <= Lander.fuel l)
  end.
  { destruct (K_LEFT keys), (K_RIGHT keys);
      repeat match goal with
             | |- context [if ?b then _ else _] => destruct b
             end;
      cbn [Lander.set_x Lander.set_angle Lander.fuel];
      apply update_fuel_nonneg; exact Hf. }
  cbn [bind]. intros [= <-]. cbn [s_lander].
  now rewrite (collision_fuel _ _ _ _ _ _ _ Hc).
Qed.

(** The fuel is never negative in a session: in every frame that a run of
    the main loop reaches from a new session, fuel >= 0. *)
Lemma session_fuel_nonneg (inputs : list (Q * Keys)) (gravity : Q)
      (terrain_points : list point) (landing_zones : list LandingZone)
      (s : Session) :
  frames inputs (new_session gravity terrain_points landing_zones) = Ok s ->
  0 <= Lander.fuel (s_lander s).
Proof.
  assert (Hgen : forall s0, 0 <= Lander.fuel (s_lander s0) ->
                            frames inputs s0 = Ok s ->
                            0 <= Lander.fuel (s_lander s)).
  { induction inputs as [| [dt keys] inputs IH]; intros s0 H0; cbn [frames].
    - now intros [= <-].
    - destruct (frame dt keys s0) as [s1 |] eqn:Hs1; [| discriminate].
      cbn [bind]. apply IH. exact (frame_fuel_nonneg dt keys s0 s1 H0 Hs1). }
  apply Hgen. discriminate.
Qed.

(** C1.  In a frame with contact (lander.y + 15 >= ground_y at lander.x)
    and fuel >= 0 (which holds in every frame, the fuel starting at 100
    and being clamped at 0), the state becomes landed or crashed; it is
    landed exactly when the first pad, in creation order, whose x-range
    contains lander.x (both ends included) exists and has
    speed = hypot(vx, vy) <= maxLandingSpeed; the score then grows by
    floor(fuel) + max(0, floor((maxLandingSpeed - speed) * 50)), which is
    97 for maxLandingSpeed = 2, speed = 1 and fuel = 47.6; in every other
    contact case the state is crashed and the score is unchanged. *)
Theorem contact_outcome (terrain_points : list point)
    (landing_zones : list LandingZone) (lander : Lander.t) (score : Z)
    (ground_y : Q)
    (Hground : get_terrain_height (Lander.x lander) terrain_points 20 = Ok ground_y)
    (Hcontact : ground_y <= Lander.y lander + 15)
    (Hfuel : 0 <= Lander.fuel lander) :
  let speed := hypot (Lander.vx lander) (Lander.vy lander) in
  let safe_on lz :=
    first_containing (Lander.x lander) landing_zones lz
    /\ speed <= maxLandingSpeed lz in
  exists lander' score' state',
    collision terrain_points landing_zones lander score
    = Ok (lander', score', state')
    /\ (state' = landed <-> exists lz, safe_on lz)
    /\ (forall lz, safe_on lz ->
          (score' - score
           = Qfloor (Lander.fuel lander)
             + Z.max 0 (Qfloor ((maxLandingSpeed lz - speed) * 50)))%Z)
    /\ (forall lz, safe_on lz ->
          maxLandingSpeed lz == 2 -> speed == 1 ->
          Lander.fuel lander == 476 # 10 ->
          (score' - score = 97)%Z)
    /\ ((~ exists lz, safe_on lz) ->
        state' = crashed /\ (score' - score = 0)%Z).
Proof.
  intros speed safe_on.
  assert (Hdelta : forall lz, speed <= maxLandingSpeed lz ->
    (score + (Py.int (Lander.fuel lander)
              + Z.max 0 (Py.int ((maxLandingSpeed lz - speed) * 50))) - score
     = Qfloor (Lander.fuel lander)
       + Z.max 0 (Qfloor ((maxLandingSpeed lz - speed) * 50)))%Z).
  { intros lz Hs. rewrite !int_nonneg; [lia | | exact Hfuel].
    assert (0 <= maxLandingSpeed lz - speed) by lra.
    apply Qmult_le_0_compat; [assumption | discriminate]. }
  unfold collision. rewrite Hground. cbn [bind].
  apply Qle_bool_iff in Hcontact. rewrite Hcontact.
  destruct (in_zone (Lander.x lander) landing_zones) as [lz |] eqn:Ez.
  - apply in_zone_first in Ez. fold speed.
    destruct (Qle_bool speed (maxLandingSpeed lz)) eqn:Es.
    + apply Qle_bool_iff in Es.
      do 3 eexists. split; [reflexivity |]. cbn [fst snd].
      assert (Hsame : forall lz', safe_on lz' -> lz' = lz).
      { intros lz' [Hf _]. exact (first_containing_unique _ _ _ _ Hf Ez). }
      split; [| split; [| split]].
      * split; [intros _; exists lz; now split | reflexivity].
      * intros lz' Hs. rewrite (Hsame lz' Hs). now apply Hdelta.
      * intros lz' Hs Hm Hv Hf. rewrite (Hsame lz' Hs) in Hm.
        rewrite (Hdelta lz Es), Hf, Hm, Hv. reflexivity.
      * intros Hno. exfalso. apply Hno. exists lz. now split.
    + assert (Hnone : ~ exists lz', safe_on lz').
      { intros [lz' [Hf Hs]].
        rewrite (first_containing_unique _ _ _ _ Hf Ez) in Hs.
        apply Qle_bool_iff in Hs. congruence. }
      do 3 eexists. split; [reflexivity |]. cbn [fst snd].
      split; [| split; [| split]].
      * split; [discriminate | intros Hs; now destruct Hnone].
      * intros lz' Hs. destruct Hnone. now exists lz'.
      * intros lz' Hs. destruct Hnone. now exists lz'.
      * intros _. split; [reflexivity | lia].
  - assert (Hnone : ~ exists lz', safe_on lz').
    { intros [lz' [Hf _]]. apply in_zone_first in Hf. congruence. }
    do 3 eexists. split; [reflexivity |]. cbn [fst snd].
    split; [| split; [| split]].
    + split; [discriminate | intros Hs; now destruct Hnone].
    + intros lz' Hs. destruct Hnone. now exists lz'.
    + intros lz' Hs. destruct Hnone. now exists lz'.
    + intros _. split; [reflexivity | lia].
Qed.

End Landing.

(* ===================================================================== *)
(** * Smoothing *)
(* ===================================================================== *)

Lemma index_nth (pts : list point) (k : nat) :
  (k < length pts)%nat -> Py.index pts (Z.of_nat k) = Ok (nth k pts origin).
Proof.
  intros Hk. apply index_of_nat. now apply nth_error_nth'.
Qed.

Lemma smooth_at_interior (pts : list point) (k : nat) :
  (S (S k) < length pts)%nat ->
  smooth_at pts (1 + 1 * Z.of_nat k)
  = Ok (fst (nth (S k) pts origin),
        (height pts k + height pts (S k) + height pts (S (S k))) / 3).
Proof.
  intros Hk. unfold smooth_at.
  replace (1 + 1 * Z.of_nat k - 1)%Z with (Z.of_nat k) by lia.
  replace (1 + 1 * Z.of_nat k + 1)%Z with (Z.of_nat (S (S k))) by lia.
  replace (1 + 1 * Z.of_nat k)%Z with (Z.of_nat (S k)) by lia.
  rewrite !index_nth by lia. reflexivity.
Qed.

Lemma smooth_pass_ok (pts : list point) :
  (2 <= length pts)%nat ->
  exists pts',
    smooth_pass pts = Ok pts'
    /\ length pts' = length pts
    /\ forall i, (i < length pts)%nat -> nth i pts' origin = smoothed_point pts i.
Proof.
  intros Hlen. unfold smooth_pass.
  pose proof (index_nth pts 0 ltac:(lia)) as Hfirst.
  change (Z.of_nat 0) with 0%Z in Hfirst. rewrite Hfirst. cbn [bind].
  assert (Hrl : length (Py.range 1 (Z.of_nat (length pts) - 1) 1)
                = (length pts - 2)%nat).
  { rewrite range_length. rewrite Z.div_1_r. lia. }
  destruct (mapM_ok (smooth_at pts) (Py.range 1 (Z.of_nat (length pts) - 1) 1))
    as [interior [Hm [Hil Hnth]]].
  { intros a Ha. apply range_In in Ha. destruct Ha as [k [-> Hk]].
    rewrite Hrl in Hk. rewrite smooth_at_interior by lia. eauto. }
  rewrite Hm. cbn [bind].
  assert (Hlast : Py.index pts (-1) = Ok (nth (length pts - 1) pts origin)).
  { apply (index_from_end pts (length pts - 1)); [| lia].
    apply nth_error_nth'. lia. }
  rewrite Hlast. cbn [bind].
  eexists. split; [reflexivity |].
  rewrite Hrl in Hil.
  split; [rewrite length_app; cbn; lia |].
  intros i Hi. unfold smoothed_point.
  destruct i as [| k]; [reflexivity |].
  change (S k =? 0)%nat with false. cbn [orb app nth].
  destruct (Nat.eqb_spec (S k) (length pts - 1)) as [He | Hne].
  - rewrite app_nth2 by lia.
    replace (k - length interior)%nat with 0%nat by lia.
    cbn [nth]. now rewrite He.
  - rewrite app_nth1 by lia.
    destruct (Hnth k (1 + 1 * Z.of_nat k)%Z) as [b [Hb Hf]].
    { apply range_nth. lia. }
    rewrite smooth_at_interior in Hf by lia. injection Hf as <-.
    rewrite (nth_error_nth _ _ _ Hb).
    replace (S k - 1)%nat with k by lia.
    replace (S k + 1)%nat with (S (S k)) by lia. reflexivity.
Qed.











(* ===================================================================== *)
(** * Terrain generation *)
(* ===================================================================== *)

Lemma randint_inv (a b v : Z) (g g' : Rng) :
  randint a b g = Ok (v, g') -> (a <= v <= b)%Z.
Proof.
  unfold randint. destruct (Z.ltb_spec b a) as [Hlt | Hle]; [discriminate |].
  intros [= <- _].
  pose proof (Z.mod_pos_bound (draws g (cursor g)) (b - a + 1)) as Hm. lia.
Qed.

Lemma randint_ok (a b : Z) (g : Rng) :
  (a <= b)%Z -> exists v g', randint a b g = Ok (v, g').
Proof.
  intros Hab. unfold randint.
  destruct (Z.ltb_spec b a) as [Hlt | Hle]; [lia |]. eauto.
Qed.

Lemma rough_terrain_ok (xs : list Z) (g : Rng) :
  exists pts g', rough_terrain xs g = Ok (pts, g') /\ map fst pts = xs.
Proof.
  revert g. induction xs as [| x xs IH]; intros g; cbn [rough_terrain].
  - now exists [], g.
  - destruct (randint_ok (HEIGHT - 300) (HEIGHT - 100) g) as [y [g1 Hy]];
      [unfold HEIGHT; lia |].
    rewrite Hy. cbn [bind]. destruct (IH g1) as [pts [g2 [Hr Hf]]].
    rewrite Hr. cbn [bind]. exists ((x, inject_Z y) :: pts), g2.
    split; [reflexivity |]. cbn. now rewrite Hf.
Qed.

Lemma smooth_pass_xs (pts : list point) :
  (2 <= length pts)%nat ->
  exists pts', smooth_pass pts = Ok pts' /\ map fst pts' = map fst pts.
Proof.
  intros Hlen. destruct (smooth_pass_ok pts Hlen) as [pts' [Hs [Hl Hnth]]].
  exists pts'. split; [exact Hs |].
  apply (nth_ext _ _ (fst origin) (fst origin)); [now rewrite !length_map |].
  intros i Hi.
  assert (Hi' : (i < length pts)%nat) by (rewrite length_map in Hi; lia).
  rewrite !map_nth, (Hnth i Hi'). unfold smoothed_point.
  now destruct ((i =? 0)%nat || (i =? length pts - 1)%nat).
Qed.

Lemma smooth_terrain_grid (pts : list point) (iterations : nat) :
  grid_profile pts ->
  exists pts', smooth_terrain pts iterations = Ok pts' /\ grid_profile pts'.
Proof.
  revert pts. induction iterations as [| n IH]; intros pts Hg; cbn.
  - now exists pts.
  - destruct (smooth_pass_xs pts) as [pts1 [Hs Hx]].
    { rewrite (grid_length pts Hg). lia. }
    rewrite Hs. cbn. apply IH. unfold grid_profile in *. congruence.
Qed.

Lemma flatten_xs (pad_x pad_right : Z) (pad_y : Q) (pts : list point) :
  map fst (flatten pad_x pad_right pad_y pts) = map fst pts.
Proof.
  unfold flatten. rewrite map_map. apply map_ext.
  intros [tx ty]. now destruct ((pad_x <=? tx)%Z && (tx <=? pad_right)%Z).
Qed.

Lemma flatten_nth (pad_x pad_right : Z) (pad_y : Q) (pts : list point)
      (i : nat) (tx : Z) (ty : Q) :
  nth_error pts i = Some (tx, ty) ->
  nth_error (flatten pad_x pad_right pad_y pts) i
  = Some (tx, if (pad_x <=? tx)%Z && (tx <=? pad_right)%Z then pad_y else ty).
Proof.
  intros Hi. unfold flatten. rewrite nth_error_map, Hi. cbn.
  now destruct ((pad_x <=? tx)%Z && (tx <=? pad_right)%Z).
Qed.

Lemma pad_range_length (pad_x pad_width : Z) :
  (0 <= pad_width)%Z ->
  length (Py.range pad_x (pad_x + pad_width + 1) step)
  = S (Z.to_nat (pad_width / 20)).
Proof.
  intros Hw. rewrite range_length. unfold step.
  replace (pad_x + pad_width + 1 - pad_x + 20 - 1)%Z
    with (pad_width + 1 * 20)%Z by lia.
  rewrite Z.div_add by lia.
  pose proof (Z.div_pos pad_width 20 Hw ltac:(lia)). lia.
Qed.

Lemma pad_samples_ok (pad_x pad_width : Z) (pts : list point) :
  grid_profile pts -> (0 <= pad_width)%Z ->
  exists s samples,
    pad_samples pad_x (pad_x + pad_width) pts = Ok (s :: samples)
    /\ length (s :: samples) = S (Z.to_nat (pad_width / 20))
    /\ forall k h, nth_error (s :: samples) k = Some h ->
         get_terrain_height (inject_Z (pad_x + 20 * Z.of_nat k)) pts step = Ok h.
Proof.
  intros Hg Hw. unfold pad_samples.
  destruct (mapM_ok (fun x => get_terrain_height (inject_Z x) pts step)
                    (Py.range pad_x (pad_x + pad_width + 1) step))
    as [samples [Hm [Hl Hnth]]].
  { intros a _. now apply height_total. }
  rewrite pad_range_length in Hl by exact Hw.
  destruct samples as [| s samples]; [discriminate |].
  exists s, samples. split; [exact Hm |]. split; [exact Hl |].
  intros k h Hk.
  assert (Hlt : (k < length (Py.range pad_x (pad_x + pad_width + 1) step))%nat).
  { rewrite pad_range_length by exact Hw. rewrite <- Hl.
    apply nth_error_Some. congruence. }
  destruct (Hnth k _ (range_nth _ _ _ k Hlt)) as [b [Hb Hf]].
  rewrite Hk in Hb. injection Hb as <-. exact Hf.
Qed.

Lemma overlap_apart (pad_x pad_right : Z) (used : list (Z * Z)) :
  overlap pad_x pad_right used = false <-> Forall (apart (pad_x, pad_right)) used.
Proof.
  unfold overlap. induction used as [| zone used IH]; cbn [existsb].
  - split; [constructor | reflexivity].
  - rewrite orb_false_iff, IH, Forall_cons_iff, negb_false_iff, orb_true_iff.
    unfold apart at 2. cbn [fst snd].
    rewrite Z.ltb_lt, Z.gtb_gt. reflexivity.
Qed.

Lemma overlap_closed (pad_x pad_right : Z) (used : list (Z * Z)) :
  overlap pad_x pad_right used = true
  <-> exists zone, In zone used /\ (fst zone <= pad_right)%Z /\ (pad_x <= snd zone)%Z.
Proof.
  unfold overlap. rewrite existsb_exists. split; intros [zone [Hin H]]; exists zone.
  - rewrite negb_true_iff, orb_false_iff, Z.ltb_ge in H.
    destruct H as [H1 H2]. rewrite Z.gtb_ltb, Z.ltb_ge in H2. tauto.
  - split; [exact Hin |]. rewrite negb_true_iff, orb_false_iff, Z.ltb_ge.
    rewrite Z.gtb_ltb, Z.ltb_ge. tauto.
Qed.

Lemma apart_sym (a b : Z * Z) : apart a b -> apart b a.
Proof. unfold apart. lia. Qed.

Lemma pairwise_snoc (zones : list LandingZone) (lz : LandingZone) :
  pairwise_apart zones ->
  Forall (fun z => apart (zone_span lz) (zone_span z)) zones ->
  pairwise_apart (zones ++ [lz]).
Proof.
  intros Hp Hall i j a b Hij Ha Hb. rewrite Forall_forall in Hall.
  assert (Hcase : forall k c, nth_error (zones ++ [lz]) k = Some c ->
            (k < length zones)%nat /\ nth_error zones k = Some c
            \/ k = length zones /\ c = lz).
  { intros k c Hk. destruct (Nat.lt_ge_cases k (length zones)) as [Hlt | Hge].
    - left. split; [exact Hlt |]. now rewrite nth_error_app1 in Hk.
    - right. rewrite nth_error_app2 in Hk by exact Hge.
      destruct (k - length zones)%nat as [| m] eqn:E; cbn in Hk.
      + injection Hk as <-. split; [lia | reflexivity].
      + now destruct m. }
  destruct (Hcase i a Ha) as [[Hi Ha'] | [Hi ->]];
    destruct (Hcase j b Hb) as [[Hj Hb'] | [Hj ->]].
  - exact (Hp i j a b Hij Ha' Hb').
  - apply apart_sym. apply Hall. eapply nth_error_In, Ha'.
  - apply Hall. eapply nth_error_In, Hb'.
  - lia.
Qed.

Lemma attempt_draws (st : GenState) :
  exists w g1 x g2,
    randint 80 150 (rng st) = Ok (w, g1)
    /\ randint 50 (WIDTH - w - 50) g1 = Ok (x, g2)
    /\ (80 <= w <= 150)%Z /\ (50 <= x <= WIDTH - w - 50)%Z.
Proof.
  destruct (randint_ok 80 150 (rng st)) as [w [g1 Hw]]; [lia |].
  pose proof (randint_inv _ _ _ _ _ Hw) as Hwb.
  destruct (randint_ok 50 (WIDTH - w - 50) g1) as [x [g2 Hx]];
    [unfold WIDTH; lia |].
  pose proof (randint_inv _ _ _ _ _ Hx) as Hxb.
  now exists w, g1, x, g2.
Qed.

Lemma attempt_rejects (st : GenState) (w x : Z) (g1 g2 : Rng) :
  randint 80 150 (rng st) = Ok (w, g1) ->
  randint 50 (WIDTH - w - 50) g1 = Ok (x, g2) ->
  overlap x (x + w) (used_zones st) = true ->
  attempt st = Ok (rejected st g2).
Proof.
  intros Hw Hx Ho. unfold attempt. rewrite Hw. cbn [bind].
  rewrite Hx. cbn [bind]. now rewrite Ho.
Qed.

Lemma attempt_accepts (st : GenState) (w x : Z) (g1 g2 : Rng) (samples : list Q) :
  randint 80 150 (rng st) = Ok (w, g1) ->
  randint 50 (WIDTH - w - 50) g1 = Ok (x, g2) ->
  overlap x (x + w) (used_zones st) = false ->
  pad_samples x (x + w) (terrain_points st) = Ok samples ->
  samples <> [] ->
  attempt st = Ok (accepted st w x (pad_mean samples) g2).
Proof.
  intros Hw Hx Ho Hs Hne. unfold attempt. rewrite Hw. cbn [bind].
  rewrite Hx. cbn [bind]. rewrite Ho, Hs. cbn [bind].
  destruct samples as [| s samples]; [congruence | reflexivity].
Qed.

Lemma attempt_step (st : GenState) :
  gen_inv st -> placing st = true ->
  exists st',
    attempt st = Ok st' /\ gen_inv st'
    /\ attempts st' = (attempts st + 1)%Z.
Proof.
  intros [Hgrid Hused Hplaced Hapart Hatt Hcount] Hplacing.
  unfold placing in Hplacing. apply andb_true_iff in Hplacing.
  destruct Hplacing as [Hlen Hlt]. apply Z.ltb_lt in Hlen, Hlt.
  unfold num_zones in Hlen.
  destruct (attempt_draws st) as [w [g1 [x [g2 [Hw [Hx [Hwb Hxb]]]]]]].
  destruct (overlap x (x + w) (used_zones st)) eqn:Ho.
  - exists (rejected st g2). split; [now apply (attempt_rejects st w x g1 g2) |].
    split; [| reflexivity].
    constructor; cbn; try assumption. lia.
  - destruct (pad_samples_ok x w (terrain_points st) Hgrid) as [s [samples [Hs _]]];
      [lia |].
    exists (accepted st w x (pad_mean (s :: samples)) g2).
    split; [apply (attempt_accepts st w x g1 g2); try assumption; discriminate |].
    split; [| reflexivity].
    apply overlap_apart in Ho. rewrite Hused in Ho.
    constructor; cbn [accepted terrain_points landing_zones attempts used_zones].
    + unfold grid_profile. now rewrite flatten_xs.
    + rewrite map_app, Hused. reflexivity.
    + apply Forall_app. split; [exact Hplaced |].
      constructor; [| constructor].
      unfold well_placed, Rect.left, Rect.right, WIDTH in *. cbn. lia.
    + apply pairwise_snoc; [exact Hapart |].
      rewrite Forall_map in Ho. exact Ho.
    + lia.
    + rewrite length_app. cbn. lia.
Qed.

Lemma place_loop_spec (fuel : nat) (st : GenState) :
  gen_inv st -> (20 - attempts st <= Z.of_nat fuel)%Z ->
  exists st',
    place_loop fuel st = Ok st' /\ gen_inv st' /\ placing st' = false.
Proof.
  revert st. induction fuel as [| fuel IH]; intros st Hinv Hfuel.
  - cbn [place_loop]. destruct (placing st) eqn:Hp.
    + unfold placing in Hp. apply andb_true_iff in Hp.
      destruct Hp as [_ Hlt]. apply Z.ltb_lt in Hlt. lia.
    + now exists st.
  - cbn [place_loop]. destruct (placing st) eqn:Hp.
    + destruct (attempt_step st Hinv Hp) as [st1 [Ha [Hinv1 Hatt]]].
      rewrite Ha. cbn [bind]. apply IH; [exact Hinv1 | lia].
    + now exists st.
Qed.

Lemma placement_start_inv (smoothed : list point) (g : Rng) :
  grid_profile smoothed -> gen_inv (placement_start smoothed g).
Proof.
  intros Hg. constructor; cbn; try easy; try lia.
  intros i j a b _ Ha. now destruct i.
Qed.

Lemma generation_spec (fuel : nat) (g : Rng) :
  (20 <= fuel)%nat ->
  exists st,
    generation fuel g = Ok st /\ gen_inv st /\ placing st = false.
Proof.
  intros Hfuel. unfold generation.
  destruct (rough_terrain_ok (Py.range 0 (WIDTH + 1) step) g)
    as [rough [g1 [Hr Hx]]].
  rewrite Hr. cbn [bind].
  destruct (smooth_terrain_grid rough 3 Hx) as [smoothed [Hs Hg]].
  rewrite Hs. cbn [bind].
  apply (place_loop_spec fuel (placement_start smoothed g1)).
  - now apply placement_start_inv.
  - cbn. lia.
Qed.

(** C6.  Whatever the random source, generation (run with enough fuel for
    its 20 attempts) returns pads whose x-ranges are pairwise strictly
    disjoint (right_i < left_j or left_i > right_j for distinct i, j), each
    of a width in [80, 150] and with left >= 50 and right <= WIDTH - 50. *)
Theorem generated_pads_disjoint_on_screen (fuel : nat) (g : Rng)
    (Hfuel : (20 <= fuel)%nat) :
  exists terrain zones,
    generate_terrain_and_landing_zones fuel g = Ok (terrain, zones)
    /\ (forall i j a b,
          i <> j -> nth_error zones i = Some a -> nth_error zones j = Some b ->
          (Rect.right (rect a) < Rect.left (rect b))%Z
          \/ (Rect.left (rect a) > Rect.right (rect b))%Z)
    /\ (forall lz, In lz zones ->
          (80 <= Rect.width (rect lz) <= 150)%Z
          /\ (50 <= Rect.left (rect lz))%Z
          /\ (Rect.right (rect lz) <= WIDTH - 50)%Z).
Proof.
  destruct (generation_spec fuel g Hfuel) as [st [Hgen [Hinv _]]].
  exists (terrain_points st), (landing_zones st).
  unfold generate_terrain_and_landing_zones. rewrite Hgen. cbn [bind].
  split; [reflexivity |]. split.
  - intros i j a b Hij Ha Hb. exact (inv_apart st Hinv i j a b Hij Ha Hb).
  - intros lz Hin. pose proof (inv_placed st Hinv) as Hp.
    rewrite Forall_forall in Hp. exact (Hp lz Hin).
Qed.

Lemma generated_pads_disjoint_on_screen_witness :
  exists terrain zones,
    generate_terrain_and_landing_zones 20 touching_source = Ok (terrain, zones).
Proof.
  destruct (generated_pads_disjoint_on_screen 20 touching_source)
    as [terrain [zones [Hgen _]]]; [lia |].
  exists terrain, zones. exact Hgen.
Defined.

(** C8.  Whatever the random source, generation (run with enough fuel for
    its 20 attempts) returns without raising: the placement loop has made
    at most 20 attempts, between 0 and 3 pads are returned, and a pad set
    shorter than 3 is returned exactly as it stands when the 20 attempts
    are exhausted. *)
Theorem generation_terminates (fuel : nat) (g : Rng) (Hfuel : (20 <= fuel)%nat) :
  exists st,
    generation fuel g = Ok st
    /\ generate_terrain_and_landing_zones fuel g
       = Ok (terrain_points st, landing_zones st)
    /\ (0 <= attempts st <= 20)%Z
    /\ (0 <= length (landing_zones st) <= 3)%nat
    /\ ((length (landing_zones st) < 3)%nat -> attempts st = 20%Z).
Proof.
  destruct (generation_spec fuel g Hfuel) as [st [Hgen [Hinv Hdone]]].
  exists st. unfold generate_terrain_and_landing_zones. rewrite Hgen. cbn [bind].
  split; [reflexivity |]. split; [reflexivity |].
  pose proof (inv_attempts st Hinv) as Hatt.
  pose proof (inv_count st Hinv) as Hcount.
  split; [exact Hatt |]. split; [lia |].
  intros Hshort. unfold placing, num_zones in Hdone.
  apply andb_false_iff in Hdone. destruct Hdone as [Hd | Hd].
  - apply Z.ltb_ge in Hd. lia.
  - apply Z.ltb_ge in Hd. lia.
Qed.

Lemma generation_terminates_witness :
  exists st,
    generation 20 flat_source = Ok st
    /\ (0 <= length (landing_zones st) <= 3)%nat.
Proof.
  destruct (generation_terminates 20 flat_source) as [st [Hgen [_ [_ [Hn _]]]]];
    [lia |].
  exists st. split; assumption.
Defined.

(** A run that exhausts its 20 attempts with one pad placed: on the flat
    source every candidate after the first is the pad [50, 130] again. *)
Example generation_short_pad_set :
  exists st,
    generation 20 flat_source = Ok st
    /\ attempts st = 20%Z
    /\ used_zones st = [(50, 130)%Z]
    /\ length (landing_zones st) = 1%nat.
Proof.
  eexists. split; [vm_compute; reflexivity |].
  split; [| split]; vm_compute; reflexivity.
Qed.

(** C5, as the code has it.  The overlap test is a test on closed
    intervals: a candidate is rejected exactly when pad_x <= zone.right and
    zone.left <= pad_right for some placed pad, so a candidate whose x-range
    touches a placed pad's x-range at an endpoint is rejected, and the
    rejected attempt changes nothing but the attempt counter and the random
    source. *)
Theorem touching_candidate_is_rejected (st : GenState) (w x : Z) (g1 g2 : Rng)
    (Hw : randint 80 150 (rng st) = Ok (w, g1))
    (Hx : randint 50 (WIDTH - w - 50) g1 = Ok (x, g2)) :
  (overlap x (x + w) (used_zones st) = true
   <-> exists zone, In zone (used_zones st)
                    /\ (fst zone <= x + w)%Z /\ (x <= snd zone)%Z)
  /\ (overlap x (x + w) (used_zones st) = true ->
      attempt st = Ok (rejected st g2))
  /\ (forall zone,
        In zone (used_zones st) -> (fst zone <= snd zone)%Z ->
        (x + w)%Z = fst zone \/ x = snd zone ->
        attempt st = Ok (rejected st g2)).
Proof.
  pose proof (randint_inv _ _ _ _ _ Hw) as Hwb.
  split; [apply overlap_closed |].
  split; [now apply (attempt_rejects st w x g1 g2) |].
  intros zone Hin Hzone Htouch.
  apply (attempt_rejects st w x g1 g2 Hw Hx).
  apply overlap_closed. exists zone. split; [exact Hin | lia].
Qed.

Lemma touching_candidate_is_rejected_witness :
  attempt one_pad_state
  = Ok (rejected one_pad_state {| draws := draws (rng one_pad_state); cursor := 2 |}).
Proof.
  destruct (touching_candidate_is_rejected one_pad_state 80 130
              {| draws := draws (rng one_pad_state); cursor := 1 |}
              {| draws := draws (rng one_pad_state); cursor := 2 |}
              eq_refl eq_refl) as [_ [_ Htouch]].
  apply (Htouch (50, 130)%Z); [now left | cbn; lia | now right].
Defined.

(** C5, as stated, fails: in the generation run on [touching_source] the
    first attempt places the pad [50, 130]; the second candidate is the pad
    [130, 210], whose left edge equals the placed pad's right edge, and it
    is rejected. *)
Lemma touching_candidate_counterexample :
  exists rough g1 smoothed st1 g2 g3,
    rough_terrain (Py.range 0 (WIDTH + 1) step) touching_source = Ok (rough, g1)
    /\ smooth_terrain rough 3 = Ok smoothed
    /\ attempt (placement_start smoothed g1) = Ok st1
    /\ used_zones st1 = [(50, 130)%Z]
    /\ randint 80 150 (rng st1) = Ok (80%Z, g2)
    /\ randint 50 (WIDTH - 80 - 50) g2 = Ok (130%Z, g3)
    /\ attempt st1 = Ok (rejected st1 g3)
    /\ landing_zones (rejected st1 g3) = landing_zones st1.
Proof.
  do 6 eexists.
  split; [vm_compute; reflexivity |].
  split; [vm_compute; reflexivity |].
  split; [vm_compute; reflexivity |].
  split; [vm_compute; reflexivity |].
  split; [vm_compute; reflexivity |].
  split; [vm_compute; reflexivity |].
  split; vm_compute; reflexivity.
Qed.

(** C4, as the code has it.  For every accepted candidate (pad_x, width):
    the samples are the interpolated heights of the profile as it is before
    this pad's flattening, taken every 20 units from pad_x across
    [pad_x, pad_right]; pad_y is their arithmetic mean; every terrain sample
    with pad_x <= x <= pad_right is overwritten with pad_y and no other
    sample changes; the recorded pad is the rectangle at
    (pad_x, int(pad_y - 10)), the ordinate being truncated to an integer,
    with the chosen width, thickness 10 and maxLandingSpeed 2. *)
Theorem accepted_pad_is_flush (st : GenState) (w x : Z) (g1 g2 : Rng)
    (Hgrid : grid_profile (terrain_points st))
    (Hw : randint 80 150 (rng st) = Ok (w, g1))
    (Hx : randint 50 (WIDTH - w - 50) g1 = Ok (x, g2))
    (Hfree : overlap x (x + w) (used_zones st) = false) :
  exists samples st',
    attempt st = Ok st'
    /\ (0 < length samples)%nat
    /\ (x + w < x + 20 * Z.of_nat (length samples))%Z
    /\ (forall k h, nth_error samples k = Some h ->
          (x + 20 * Z.of_nat k <= x + w)%Z
          /\ get_terrain_height (inject_Z (x + 20 * Z.of_nat k))
                                (terrain_points st) 20 = Ok h)
    /\ let pad_y := Py.sum samples / inject_Z (Z.of_nat (length samples)) in
       length (terrain_points st') = length (terrain_points st)
       /\ (forall i tx ty,
             nth_error (terrain_points st) i = Some (tx, ty) ->
             nth_error (terrain_points st') i
             = Some (tx, if (x <=? tx)%Z && (tx <=? x + w)%Z then pad_y else ty))
       /\ landing_zones st'
          = landing_zones st ++
            [{| rect := Rect.make x (Py.int (pad_y - 10)) w 10;
                maxLandingSpeed := 2;
                label := "Pad" |}].
Proof.
  pose proof (randint_inv _ _ _ _ _ Hw) as Hwb.
  destruct (pad_samples_ok x w (terrain_points st) Hgrid)
    as [s [samples [Hs [Hlen Hnth]]]]; [lia |].
  exists (s :: samples), (accepted st w x (pad_mean (s :: samples)) g2).
  split; [apply (attempt_accepts st w x g1 g2); try assumption; discriminate |].
  assert (Hdiv : (0 <= w / 20)%Z) by (apply Z.div_pos; lia).
  pose proof (Z.mul_div_le w 20 ltac:(lia)) as Hfloor.
  pose proof (Z.mul_succ_div_gt w 20 ltac:(lia)) as Hceil.
  split; [cbn; lia |].
  split; [rewrite Hlen; lia |].
  split.
  - intros k h Hk. split; [| now apply Hnth].
    assert (Hlt : (k < length (s :: samples))%nat)
      by (apply nth_error_Some; congruence).
    rewrite Hlen in Hlt. lia.
  - cbv zeta. fold (pad_mean (s :: samples)).
    cbn [accepted terrain_points landing_zones].
    split; [unfold flatten; apply length_map |].
    split; [| reflexivity].
    intros i tx ty Hi. now apply flatten_nth.
Qed.

Lemma accepted_pad_is_flush_witness :
  exists st',
    attempt flat_start = Ok st'
    /\ landing_zones st' = [LandingZone_init 50 490 80 10 2 "Pad"].
Proof.
  destruct (accepted_pad_is_flush flat_start 80 50
              {| draws := draws flat_source; cursor := 1 |}
              {| draws := draws flat_source; cursor := 2 |}
              eq_refl eq_refl eq_refl eq_refl)
    as [samples [st' [Ha _]]].
  exists st'. split; [exact Ha |].
  vm_compute in Ha. injection Ha as <-. reflexivity.
Defined.

(** C4, as stated, fails: in the generation run on [bumpy_source] the first
    candidate, the pad over [50, 130], is accepted; the mean of its samples
    on the smoothed profile is pad_y = 13504/27, and the recorded rectangle
    is at the ordinate 490, which is not pad_y - 10. *)
Lemma pad_ordinate_counterexample :
  exists rough g1 smoothed samples st1 lz,
    rough_terrain (Py.range 0 (WIDTH + 1) step) bumpy_source = Ok (rough, g1)
    /\ smooth_terrain rough 3 = Ok smoothed
    /\ pad_samples 50 130 smoothed = Ok samples
    /\ pad_mean samples == 13504 # 27
    /\ attempt (placement_start smoothed g1) = Ok st1
    /\ landing_zones st1 = [lz]
    /\ Rect.x (rect lz) = 50%Z
    /\ Rect.width (rect lz) = 80%Z
    /\ Rect.y (rect lz) = 490%Z
    /\ ~ inject_Z (Rect.y (rect lz)) == pad_mean samples - 10.
Proof.
  do 6 eexists.
  split; [vm_compute; reflexivity |].
  split; [vm_compute; reflexivity |].
  split; [vm_compute; reflexivity |].
  split; [vm_compute; reflexivity |].
  split; [vm_compute; reflexivity |].
  split; [vm_compute; reflexivity |].
  split; [reflexivity |].
  split; [reflexivity |].
  split; [reflexivity |].
  vm_compute. discriminate.
Qed.

(* ===================================================================== *)
(** * Runs on the sample data *)
(* ===================================================================== *)

Lemma get_terrain_height_contract_witness :
  grid_profile flat_profile
  /\ exists y, get_terrain_height 30 flat_profile 20 = Ok y.
Proof.
  split; [reflexivity |].
  destruct (get_terrain_height_contract flat_profile eq_refl)
    as [_ [_ [_ [_ Htotal]]]].
  exact (Htotal 30).
Defined.

Lemma fuel_never_negative_witness :
  0 <= Lander.fuel (Lander.init (1 # 10))
  /\ 0 <= Lander.fuel
            (Lander.updates (M := axis_math) [(1 # 60, true); (1 # 60, false)]
                            (Lander.init (1 # 10))).
Proof.
  assert (Hfuel : 0 <= Lander.fuel (Lander.init (1 # 10))) by discriminate.
  split; [exact Hfuel |].
  destruct (fuel_never_negative (M := axis_math) (Lander.init (1 # 10)) Hfuel)
    as [_ Hall].
  exact (Hall [(1 # 60, true); (1 # 60, false)]).
Defined.

Lemma update_frame_effect_witness :
  Lander.vy (Lander.update (M := axis_math) (1 # 60) false (Lander.init (1 # 10)))
  = 0 + (1 # 10).
Proof.
  destruct (update_frame_effect (M := axis_math) (1 # 60) false (Lander.init (1 # 10)))
    as [_ [_ [_ [_ Hidle]]]].
  destruct (Hidle (or_introl eq_refl)) as [_ [_ Hvy]].
  exact Hvy.
Defined.

Lemma contact_outcome_witness :
  exists lander' score',
    collision (M := axis_math) flat_profile [sample_pad] sample_lander 0
    = Ok (lander', score', landed)
    /\ score' = 97%Z.
Proof.
  assert (Hheight : exists ground_y,
            get_terrain_height (Lander.x sample_lander) flat_profile 20 = Ok ground_y
            /\ ground_y <= Lander.y sample_lander + 15).
  { eexists. split; [vm_compute; reflexivity | vm_compute; discriminate]. }
  destruct Hheight as [ground_y [Hground Hcontact]].
  assert (Hfuel : 0 <= Lander.fuel sample_lander) by discriminate.
  destruct (contact_outcome (M := axis_math) flat_profile [sample_pad]
              sample_lander 0 ground_y Hground Hcontact Hfuel)
    as [lander' [score' [state' [Hrun [Hlanded [_ [Hscore _]]]]]]].
  assert (Hsafe : first_containing (Lander.x sample_lander) [sample_pad] sample_pad
                  /\ @hypot axis_math (Lander.vx sample_lander) (Lander.vy sample_lander)
                     <= maxLandingSpeed sample_pad).
  { split; [| discriminate].
    exists [], []. split; [reflexivity |]. split.
    - split; discriminate.
    - intros z []. }
  assert (Hst : state' = landed) by (apply Hlanded; now exists sample_pad).
  subst state'. exists lander', score'. split; [exact Hrun |].
  pose proof (Hscore sample_pad Hsafe ltac:(reflexivity) ltac:(reflexivity)
                ltac:(reflexivity)) as H97.
  lia.
Defined.

(* ===================================================================== *)
(** * The height field outside its contract *)
(* ===================================================================== *)

Lemma index_nil {A : Type} (i : Z) : Py.index (@nil A) i = Raise IndexError.
Proof.
  unfold Py.index. cbn [length Z.of_nat].
  destruct (if (i <? 0)%Z then (0 + i)%Z else i) as [| j | j]; cbn;
    try reflexivity.
  now destruct (Pos.to_nat j).
Qed.

Lemma index_beyond {A : Type} (l : list A) (i : Z) :
  (Z.of_nat (length l) <= i)%Z -> Py.index l i = Raise IndexError.
Proof.
  intros Hi. unfold Py.index.
  destruct (Z.ltb_spec i 0) as [Hneg | _]; [lia |].
  destruct (Z.ltb_spec i 0) as [Hneg | _]; [lia |].
  assert (Hn : nth_error l (Z.to_nat i) = None) by (apply nth_error_None; lia).
  now rewrite Hn.
Qed.

Lemma floor_nonneg (x : Q) : 0 < x -> (0 <= Qfloor (x / 20))%Z.
Proof.
  intros H0. assert (Hq := div20 x).
  change 0%Z with (Qfloor 0). apply Qfloor_resp_le. lra.
Qed.

Lemma height_inside_unfold (x : Q) (pts : list point) :
  0 < x -> x < inject_Z WIDTH ->
  get_terrain_height x pts 20
  = (p1 <- Py.index pts (Qfloor (x / 20)) ;;
     p2 <- Py.index pts (Z.min (Qfloor (x / 20) + 1) (Z.of_nat (length pts) - 1)) ;;
     t <- Py.div (x - inject_Z (fst p1)) (inject_Z (fst p2 - fst p1)) ;;
     Ok (snd p1 * (1 - t) + snd p2 * t)).
Proof.
  intros H0 HW. unfold get_terrain_height.
  destruct (Qle_bool x 0) eqn:E0; [apply Qle_bool_iff in E0; lra |].
  destruct (Qle_bool (inject_Z WIDTH) x) eqn:EW; [apply Qle_bool_iff in EW; lra |].
  reflexivity.
Qed.

(** X1.  On an empty profile [get_terrain_height] raises IndexError for
    every x. *)
Theorem height_of_empty_profile (x : Q) :
  get_terrain_height x [] 20 = Raise IndexError.
Proof.
  unfold get_terrain_height.
  destruct (Qle_bool x 0); [now rewrite index_nil |].
  destruct (Qle_bool (inject_Z WIDTH) x); [now rewrite index_nil |].
  cbn [Py.floordiv Z.eqb bind]. now rewrite index_nil.
Qed.

(** X2.  There is no guard for a zero-width interval: when 0 < x < WIDTH and
    floor(x / 20) is the last index of the profile, p2 is p1 again and
    [get_terrain_height] raises ZeroDivisionError. *)
Theorem height_in_last_interval (pts : list point) (x : Q)
    (H0 : 0 < x) (HW : x < inject_Z WIDTH)
    (Hlast : Qfloor (x / 20) = (Z.of_nat (length pts) - 1)%Z) :
  get_terrain_height x pts 20 = Raise ZeroDivisionError.
Proof.
  rewrite height_inside_unfold by assumption.
  pose proof (floor_nonneg x H0) as Hidx.
  rewrite Hlast in *.
  replace (Z.min (Z.of_nat (length pts) - 1 + 1) (Z.of_nat (length pts) - 1))
    with (Z.of_nat (length pts) - 1)%Z by lia.
  replace (Z.of_nat (length pts) - 1)%Z with (Z.of_nat (length pts - 1)) by lia.
  rewrite (index_nth pts (length pts - 1)) by lia. cbn [bind].
  rewrite Z.sub_diag. reflexivity.
Qed.

Lemma height_in_last_interval_witness :
  get_terrain_height 10 lone_profile 20 = Raise ZeroDivisionError
  /\ get_terrain_height 1190 clipped_profile 20 = Raise ZeroDivisionError.
Proof.
  split.
  - apply (height_in_last_interval lone_profile 10); reflexivity.
  - apply (height_in_last_interval clipped_profile 1190); reflexivity.
Defined.

(** X3.  When 0 < x < WIDTH and the profile has no sample at index
    floor(x / 20), [get_terrain_height] raises IndexError. *)
Theorem height_beyond_profile (pts : list point) (x : Q)
    (H0 : 0 < x) (HW : x < inject_Z WIDTH)
    (Hshort : (Z.of_nat (length pts) <= Qfloor (x / 20))%Z) :
  get_terrain_height x pts 20 = Raise IndexError.
Proof.
  rewrite height_inside_unfold by assumption.
  now rewrite index_beyond.
Qed.

Lemma height_beyond_profile_witness :
  get_terrain_height 30 lone_profile 20 = Raise IndexError.
Proof.
  apply (height_beyond_profile lone_profile 30); [reflexivity | reflexivity |].
  vm_compute. discriminate.
Defined.

Lemma interpolation_bounds (lo hi y1 y2 t : Q) :
  0 <= t -> t <= 1 -> lo <= y1 -> y1 <= hi -> lo <= y2 -> y2 <= hi ->
  lo <= y1 * (1 - t) + y2 * t /\ y1 * (1 - t) + y2 * t <= hi.
Proof.
  intros Ht0 Ht1 Hl1 Hh1 Hl2 Hh2.
  assert (Ha : 0 <= (y1 - lo) * (1 - t)) by (apply Qmult_le_0_compat; lra).
  assert (Hb : 0 <= (y2 - lo) * t) by (apply Qmult_le_0_compat; lra).
  assert (Hc : 0 <= (hi - y1) * (1 - t)) by (apply Qmult_le_0_compat; lra).
  assert (Hd : 0 <= (hi - y2) * t) by (apply Qmult_le_0_compat; lra).
  split.
  - assert (E : y1 * (1 - t) + y2 * t - lo == (y1 - lo) * (1 - t) + (y2 - lo) * t)
      by ring.
    lra.
  - assert (E : hi - (y1 * (1 - t) + y2 * t) == (hi - y1) * (1 - t) + (hi - y2) * t)
      by ring.
    lra.
Qed.

Lemma height_between_bounds (pts : list point) (x lo hi : Q) :
  grid_profile pts -> 0 < x -> x < inject_Z WIDTH ->
  (forall p, (nth_error pts (Z.to_nat (Qfloor (x / 20))) = Some p
              \/ nth_error pts (S (Z.to_nat (Qfloor (x / 20)))) = Some p) ->
             lo <= snd p /\ snd p <= hi) ->
  exists h, get_terrain_height x pts 20 = Ok h /\ lo <= h /\ h <= hi.
Proof.
  intros Hg H0 HW Hb.
  destruct (height_between pts x Hg H0 HW) as [p1 [p2 H]].
  destruct H as [Hp1 [Hp2 [Hd [Hle [Hlt Hh]]]]].
  eexists. split; [exact Hh |]. cbv zeta.
  destruct (Hb p1 (or_introl Hp1)) as [Hl1 Hh1].
  destruct (Hb p2 (or_intror Hp2)) as [Hl2 Hh2].
  assert (Hx2 : inject_Z (fst p2) == inject_Z (fst p1) + 20).
  { replace (fst p2) with (fst p1 + 20)%Z by lia. now rewrite inject_Z_plus. }
  rewrite Hd. change (inject_Z 20) with 20.
  set (t := (x - inject_Z (fst p1)) / 20).
  assert (Ht : 20 * t == x - inject_Z (fst p1)) by apply div20.
  apply interpolation_bounds; try assumption; lra.
Qed.

Lemma bounded_nth (lo hi : Q) (pts : list point) (k : nat) (p : point) :
  bounded lo hi pts -> nth_error pts k = Some p -> lo <= snd p /\ snd p <= hi.
Proof.
  intros Hb Hk. unfold bounded in Hb. rewrite Forall_forall in Hb.
  apply Hb. eapply nth_error_In, Hk.
Qed.

Lemma height_bounded (pts : list point) (x lo hi : Q) :
  grid_profile pts -> bounded lo hi pts ->
  exists h, get_terrain_height x pts 20 = Ok h /\ lo <= h /\ h <= hi.
Proof.
  intros Hg Hb.
  destruct (grid_sample pts 0 Hg) as [pf [Hpf _]]; [lia |].
  destruct (grid_sample pts 60 Hg) as [pl [Hpl _]]; [lia |].
  destruct (Qlt_le_dec 0 x) as [H0 | H0].
  - destruct (Qlt_le_dec x (inject_Z WIDTH)) as [HW | HW].
    + apply height_between_bounds; try assumption.
      intros p [Hp | Hp]; exact (bounded_nth lo hi pts _ p Hb Hp).
    + exists (snd pl). split; [| exact (bounded_nth lo hi pts _ pl Hb Hpl)].
      apply (height_right pts x 60 pl Hpl); [| exact HW].
      now rewrite (grid_length pts Hg).
  - exists (snd pf). split; [| exact (bounded_nth lo hi pts _ pf Hb Hpf)].
    now apply (height_left pts x pf).
Qed.

(* ===================================================================== *)
(** * More on smoothing *)
(* ===================================================================== *)

(** X6.  Smoothing the empty profile raises IndexError, and smoothing a
    one-sample profile returns two copies of the sample, whatever the
    positive number of iterations. *)
Theorem smooth_degenerate_profiles (n : nat) :
  smooth_terrain [] (S n) = Raise IndexError
  /\ forall p : point, smooth_terrain [p] (S n) = Ok [p; p].
Proof.
  split; [reflexivity |].
  intros p. cbn [smooth_terrain].
  change (smooth_pass [p]) with (Ok [p; p]). cbn [bind].
  induction n as [| n IH]; [reflexivity |].
  cbn [smooth_terrain]. change (smooth_pass [p; p]) with (Ok [p; p]).
  cbn [bind]. exact IH.
Qed.

Lemma smooth_pass_shape (pts : list point) :
  (2 <= length pts)%nat ->
  exists pts',
    smooth_pass pts = Ok pts'
    /\ length pts' = length pts
    /\ map fst pts' = map fst pts
    /\ nth 0 pts' origin = nth 0 pts origin
    /\ nth (length pts - 1) pts' origin = nth (length pts - 1) pts origin.
Proof.
  intros Hlen.
  destruct (smooth_pass_ok pts Hlen) as [pts' [Hs [Hl Hnth]]].
  destruct (smooth_pass_xs pts Hlen) as [pts'' [Hs' Hx]].
  rewrite Hs in Hs'. injection Hs' as <-.
  exists pts'. repeat split; try assumption.
  - now rewrite Hnth by lia.
  - rewrite Hnth by lia. unfold smoothed_point.
    now rewrite Nat.eqb_refl, orb_true_r.
Qed.

(** X7.  On a profile of at least 2 samples, [smooth_terrain] returns, for
    every number of iterations, a profile of the same length with the same
    x-coordinates and the same first and last sample. *)
Theorem smooth_keeps_shape (pts : list point) (iterations : nat)
    (Hlen : (2 <= length pts)%nat) :
  exists pts',
    smooth_terrain pts iterations = Ok pts'
    /\ length pts' = length pts
    /\ map fst pts' = map fst pts
    /\ nth 0 pts' origin = nth 0 pts origin
    /\ nth (length pts - 1) pts' origin = nth (length pts - 1) pts origin.
Proof.
  revert pts Hlen. induction iterations as [| n IH]; intros pts Hlen.
  - exists pts. repeat split.
  - destruct (smooth_pass_shape pts Hlen) as [pts1 [Hs [Hl [Hx [Hf Hla]]]]].
    destruct (IH pts1 ltac:(lia)) as [pts' [Hs' [Hl' [Hx' [Hf' Hla']]]]].
    exists pts'. cbn [smooth_terrain]. rewrite Hs. cbn [bind].
    rewrite Hl in *. repeat split; congruence.
Qed.

Lemma smooth_keeps_shape_witness :
  exists pts',
    smooth_terrain ramp 3 = Ok pts'
    /\ length pts' = length ramp
    /\ map fst pts' = map fst ramp
    /\ nth 0 pts' origin = nth 0 ramp origin
    /\ nth (length ramp - 1) pts' origin = nth (length ramp - 1) ramp origin.
Proof.
  apply (smooth_keeps_shape ramp 3). cbn. lia.
Defined.

Lemma bounded_height (lo hi : Q) (pts : list point) (j : nat) :
  bounded lo hi pts -> (j < length pts)%nat ->
  lo <= height pts j /\ height pts j <= hi.
Proof.
  intros Hb Hj. unfold height.
  apply (bounded_nth lo hi pts j). { exact Hb. }
  now apply nth_error_nth'.
Qed.

Lemma smooth_pass_bounded (lo hi : Q) (pts pts' : list point) :
  (2 <= length pts)%nat -> bounded lo hi pts ->
  smooth_pass pts = Ok pts' -> bounded lo hi pts'.
Proof.
  intros Hlen Hb Hs.
  destruct (smooth_pass_ok pts Hlen) as [pts1 [Hs1 [Hl Hnth]]].
  rewrite Hs in Hs1. injection Hs1 as <-.
  unfold bounded. apply Forall_forall. intros p Hp.
  destruct (In_nth _ _ origin Hp) as [i [Hi <-]]. rewrite Hl in Hi.
  rewrite (Hnth i Hi). unfold smoothed_point.
  destruct ((i =? 0)%nat || (i =? length pts - 1)%nat) eqn:E.
  - exact (bounded_height lo hi pts i Hb Hi).
  - apply orb_false_iff in E. destruct E as [E0 En].
    apply Nat.eqb_neq in E0, En. cbn [snd].
    destruct (bounded_height lo hi pts (i - 1) Hb ltac:(lia)) as [Ha1 Ha2].
    destruct (bounded_height lo hi pts i Hb Hi) as [Hb1 Hb2].
    destruct (bounded_height lo hi pts (i + 1) Hb ltac:(lia)) as [Hc1 Hc2].
    set (a := height pts (i - 1)) in *. set (b := height pts i) in *.
    set (c := height pts (i + 1)) in *.
    assert (E3 : 3 * ((a + b + c) / 3) == a + b + c) by (field).
    set (m := (a + b + c) / 3) in *. split; lra.
Qed.

Lemma smoothing_stays_bounded (lo hi : Q) (pts : list point) (iterations : nat) :
  (2 <= length pts)%nat -> bounded lo hi pts ->
  exists pts', smooth_terrain pts iterations = Ok pts' /\ bounded lo hi pts'.
Proof.
  revert pts. induction iterations as [| n IH]; intros pts Hlen Hb.
  - now exists pts.
  - destruct (smooth_pass_shape pts Hlen) as [pts1 [Hs [Hl _]]].
    cbn [smooth_terrain]. rewrite Hs. cbn [bind].
    apply IH; [lia |]. exact (smooth_pass_bounded lo hi pts pts1 Hlen Hb Hs).
Qed.

(** X8.  Smoothing keeps the altitude band of the game: on a profile of
    at least 2 samples whose heights are all in [500, 700], [smooth_terrain]
    returns, for every number of iterations, a profile whose heights are all
    in [500, 700]. *)
Theorem smooth_keeps_band (pts : list point) (iterations : nat)
    (Hlen : (2 <= length pts)%nat) (Hband : bounded 500 700 pts) :
  exists pts', smooth_terrain pts iterations = Ok pts' /\ bounded 500 700 pts'.
Proof. now apply smoothing_stays_bounded. Qed.

Lemma flat_profile_in_band : bounded 500 700 flat_profile.
Proof.
  unfold bounded, flat_profile. apply Forall_forall.
  intros p Hp. apply in_map_iff in Hp. destruct Hp as [z [<- _]].
  split; discriminate.
Qed.

Lemma smooth_keeps_band_witness :
  exists pts', smooth_terrain flat_profile 3 = Ok pts' /\ bounded 500 700 pts'.
Proof.
  apply (smooth_keeps_band flat_profile 3);
    [change (2 <= 61)%nat; lia | exact flat_profile_in_band].
Defined.

(* ===================================================================== *)
(** * More on terrain generation *)
(* ===================================================================== *)

Lemma randint_rng (a b v : Z) (g g' : Rng) :
  randint a b g = Ok (v, g') ->
  draws g' = draws g /\ cursor g' = S (cursor g).
Proof.
  unfold randint. destruct (b <? a)%Z; [discriminate |].
  intros [= _ <-]. split; reflexivity.
Qed.

Lemma rough_terrain_facts (xs : list Z) (g g' : Rng) (pts : list point) :
  rough_terrain xs g = Ok (pts, g') ->
  bounded 500 700 pts
  /\ draws g' = draws g
  /\ cursor g' = (cursor g + length xs)%nat.
Proof.
  revert g g' pts. induction xs as [| x xs IH]; intros g g' pts; cbn [rough_terrain].
  - intros [= <- <-]. repeat split; [constructor | cbn; lia].
  - destruct (randint (HEIGHT - 300) (HEIGHT - 100) g) as [[y g1] |] eqn:Hy;
      [| discriminate].
    cbn [bind].
    destruct (rough_terrain xs g1) as [[rest g2] |] eqn:Hr; [| discriminate].
    cbn [bind]. intros [= <- <-].
    destruct (IH g1 g2 rest Hr) as [Hb [Hd Hc]].
    destruct (randint_rng _ _ _ _ _ Hy) as [Hd1 Hc1].
    pose proof (randint_inv _ _ _ _ _ Hy) as Hyb. unfold HEIGHT in Hyb.
    repeat split.
    + constructor; [| exact Hb]. cbn [snd].
      change 500 with (inject_Z 500). change 700 with (inject_Z 700).
      rewrite <- !Zle_Qle. lia.
    + congruence.
    + cbn [length]. lia.
Qed.

Lemma sum_bounds (lo hi : Q) (l : list Q) (a : Q) :
  Forall (fun h => lo <= h /\ h <= hi) l ->
  a + inject_Z (Z.of_nat (length l)) * lo <= fold_left Qplus l a
  /\ fold_left Qplus l a <= a + inject_Z (Z.of_nat (length l)) * hi.
Proof.
  revert a. induction l as [| h l IH]; intros a Hall; cbn [fold_left length].
  - change (inject_Z (Z.of_nat 0)) with 0. split; lra.
  - inversion Hall as [| h' l' [Hl Hh] Hrest]; subst.
    destruct (IH (a + h) Hrest) as [IH1 IH2].
    rewrite Nat2Z.inj_succ. unfold Z.succ. rewrite inject_Z_plus.
    change (inject_Z 1) with 1.
    set (n := inject_Z (Z.of_nat (length l))) in *.
    assert (E1 : (n + 1) * lo == n * lo + lo) by ring.
    assert (E2 : (n + 1) * hi == n * hi + hi) by ring.
    set (nl := n * lo) in *. set (nh := n * hi) in *.
    set (nl1 := (n + 1) * lo) in *. set (nh1 := (n + 1) * hi) in *.
    split; lra.
Qed.

Lemma mean_bounds (lo hi : Q) (samples : list Q) :
  samples <> [] ->
  Forall (fun h => lo <= h /\ h <= hi) samples ->
  lo <= pad_mean samples /\ pad_mean samples <= hi.
Proof.
  intros Hne Hall. unfold pad_mean, Py.sum.
  destruct (sum_bounds lo hi samples 0 Hall) as [H1 H2].
  assert (Hn : 0 < inject_Z (Z.of_nat (length samples))).
  { change 0 with (inject_Z 0). rewrite <- Zlt_Qlt.
    destruct samples; [congruence | cbn [length]; lia]. }
  set (n := inject_Z (Z.of_nat (length samples))) in *.
  split.
  - apply Qle_shift_div_l; [exact Hn |]. rewrite Qmult_comm. lra.
  - apply Qle_shift_div_r; [exact Hn |]. rewrite (Qmult_comm hi). lra.
Qed.

Lemma attempt_cases (st : GenState) :
  grid_profile (terrain_points st) ->
  exists w x g1 g2,
    randint 80 150 (rng st) = Ok (w, g1)
    /\ randint 50 (WIDTH - w - 50) g1 = Ok (x, g2)
    /\ (80 <= w <= 150)%Z /\ (50 <= x <= WIDTH - w - 50)%Z
    /\ ((overlap x (x + w) (used_zones st) = true
         /\ attempt st = Ok (rejected st g2))
        \/ (overlap x (x + w) (used_zones st) = false
            /\ exists samples,
                 samples <> []
                 /\ (forall h, In h samples ->
                       exists x', get_terrain_height x' (terrain_points st) 20 = Ok h)
                 /\ attempt st = Ok (accepted st w x (pad_mean samples) g2))).
Proof.
  intros Hgrid.
  destruct (attempt_draws st) as [w [g1 [x [g2 [Hw [Hx [Hwb Hxb]]]]]]].
  exists w, x, g1, g2. repeat (split; [assumption |]).
  destruct (overlap x (x + w) (used_zones st)) eqn:Ho.
  - left. split; [reflexivity |]. now apply (attempt_rejects st w x g1 g2).
  - right. split; [reflexivity |].
    destruct (pad_samples_ok x w (terrain_points st) Hgrid)
      as [s [samples [Hs [_ Hnth]]]]; [lia |].
    exists (s :: samples). split; [discriminate |]. split.
    + intros h Hin. destruct (In_nth_error _ _ Hin) as [k Hk].
      eexists. exact (Hnth k h Hk).
    + apply (attempt_accepts st w x g1 g2); try assumption. discriminate.
Qed.

Lemma flatten_In (pad_x pad_right tx : Z) (pad_y ty : Q) (pts : list point) :
  In (tx, ty) (flatten pad_x pad_right pad_y pts) ->
  ((pad_x <= tx <= pad_right)%Z /\ ty = pad_y)
  \/ (~ (pad_x <= tx <= pad_right)%Z /\ In (tx, ty) pts).
Proof.
  unfold flatten. intros Hin. apply in_map_iff in Hin.
  destruct Hin as [[tx0 ty0] [Heq Hin]].
  destruct (Z.leb_spec pad_x tx0); destruct (Z.leb_spec tx0 pad_right);
    cbn [andb] in Heq; injection Heq as <- <-;
    solve [left; split; [lia | reflexivity] | right; split; [lia | exact Hin]].
Qed.

Lemma attempt_keeps_more (g : Rng) (st st' : GenState) :
  gen_inv st -> placing st = true -> gen_more g st ->
  attempt st = Ok st' -> gen_more g st'.
Proof.
  intros Hinv Hplacing [Hb Hflush Hfirst Hcount Hdraws Hcursor] Hatt.
  pose proof (inv_grid st Hinv) as Hgrid.
  pose proof (inv_used st Hinv) as Hused.
  pose proof (inv_attempts st Hinv) as Hnonneg.
  destruct (attempt_cases st Hgrid)
    as [w [x [g1 [g2 [Hw [Hx [Hwb [Hxb Hcase]]]]]]]].
  destruct (randint_rng _ _ _ _ _ Hw) as [Hd1 Hc1].
  destruct (randint_rng _ _ _ _ _ Hx) as [Hd2 Hc2].
  destruct Hcase as [[Ho Hrej] | [Ho [samples [Hne [Hheights Hacc]]]]].
  - rewrite Hrej in Hatt. injection Hatt as <-.
    constructor; cbn [rejected terrain_points landing_zones attempts rng];
      try assumption; try lia; try congruence.
    intros _. destruct (landing_zones st) eqn:Ez; [| cbn; lia].
    rewrite Hused in Ho. try rewrite Ez in Ho. discriminate.
  - rewrite Hacc in Hatt. injection Hatt as <-.
    assert (Hmean : 500 <= pad_mean samples /\ pad_mean samples <= 700).
    { apply mean_bounds; [exact Hne |]. apply Forall_forall. intros h Hin.
      destruct (Hheights h Hin) as [x' Hh].
      destruct (height_bounded (terrain_points st) x' 500 700 Hgrid Hb)
        as [h' [Hh' Hbh]].
      rewrite Hh in Hh'. now injection Hh' as <-. }
    destruct Hmean as [Hm1 Hm2].
    apply overlap_apart in Ho. rewrite Hused, Forall_map in Ho.
    rewrite Forall_forall in Ho.
    constructor; cbn [accepted terrain_points landing_zones attempts rng].
    + unfold bounded. apply Forall_forall. intros [tx ty] Hin.
      destruct (flatten_In _ _ _ _ _ _ Hin) as [[_ ->] | [_ Hold]].
      * now split.
      * unfold bounded in Hb. rewrite Forall_forall in Hb. exact (Hb _ Hold).
    + apply Forall_app. split.
      * rewrite Forall_forall in Hflush. apply Forall_forall. intros lz Hlz.
        destruct (Hflush lz Hlz) as [Hh [Hs [Hl [pad_y [Hp1 [Hp2 [Hy Hflat]]]]]]].
        repeat (split; [assumption |]).
        exists pad_y. repeat (split; [assumption |]).
        intros tx ty Hin Hrange.
        destruct (flatten_In _ _ _ _ _ _ Hin) as [[Hnew _] | [_ Hold]].
        -- pose proof (Ho lz Hlz) as Hap.
           unfold apart, zone_span in Hap. cbn [fst snd] in Hap. lia.
        -- exact (Hflat tx ty Hold Hrange).
      * constructor; [| constructor].
        unfold flush. cbn [rect maxLandingSpeed label Rect.height Rect.y].
        repeat (split; [reflexivity |]).
        exists (pad_mean samples). repeat (split; [assumption |]). split.
        -- apply int_nonneg. lra.
        -- intros tx ty Hin Hrange.
           unfold Rect.left, Rect.right in Hrange. cbn in Hrange.
           destruct (flatten_In _ _ _ _ _ _ Hin) as [[_ ->] | [Hout _]];
             [reflexivity | lia].
    + intros _. rewrite length_app. cbn. lia.
    + rewrite length_app. cbn [length]. lia.
    + congruence.
    + lia.
Qed.

Lemma place_loop_more (g : Rng) (fuel : nat) (st st' : GenState) :
  gen_inv st -> gen_more g st -> place_loop fuel st = Ok st' -> gen_more g st'.
Proof.
  revert st. induction fuel as [| fuel IH]; intros st Hinv Hmore;
    cbn [place_loop]; destruct (placing st) eqn:Hp; try discriminate;
    try (now intros [= <-]).
  destruct (attempt_step st Hinv Hp) as [st1 [Ha [Hinv1 _]]].
  rewrite Ha. cbn [bind]. apply IH; [exact Hinv1 |].
  exact (attempt_keeps_more g st st1 Hinv Hp Hmore Ha).
Qed.

Lemma placement_start_more (g g1 : Rng) (smoothed : list point) :
  bounded 500 700 smoothed -> draws g1 = draws g ->
  cursor g1 = (cursor g + 61)%nat ->
  gen_more g (placement_start smoothed g1).
Proof.
  intros Hb Hd Hc. unfold placement_start.
  constructor; cbn [terrain_points landing_zones attempts rng length].
  - exact Hb.
  - constructor.
  - lia.
  - lia.
  - exact Hd.
  - lia.
Qed.

Lemma generation_more (fuel : nat) (g : Rng) :
  (20 <= fuel)%nat ->
  exists st,
    generation fuel g = Ok st /\ gen_inv st /\ gen_more g st
    /\ placing st = false.
Proof.
  intros Hfuel. unfold generation.
  destruct (rough_terrain_ok (Py.range 0 (WIDTH + 1) step) g)
    as [rough [g1 [Hr Hxs]]].
  destruct (rough_terrain_facts _ _ _ _ Hr) as [Hb [Hd Hc]].
  rewrite Hr. cbn [bind].
  destruct (smooth_terrain_grid rough 3 Hxs) as [smoothed [Hs Hg]].
  destruct (smoothing_stays_bounded 500 700 rough 3) as [smoothed' [Hs' Hbs]].
  { rewrite (grid_length rough Hxs). lia. }
  { exact Hb. }
  rewrite Hs in Hs'. injection Hs' as <-.
  rewrite Hs. cbn [bind].
  pose proof (placement_start_inv smoothed g1 Hg) as Hinv0.
  destruct (place_loop_spec fuel (placement_start smoothed g1) Hinv0)
    as [st [Hloop [Hinv Hdone]]].
  { cbn [placement_start attempts]. lia. }
  exists st. split; [exact Hloop |]. split; [exact Hinv |].
  split; [| exact Hdone].
  apply (place_loop_more g fuel (placement_start smoothed g1) st Hinv0);
    [| exact Hloop].
  apply placement_start_more; [exact Hbs | exact Hd |].
  rewrite Hc. reflexivity.
Qed.

(** X10.  Whatever the random source, the returned terrain has 61 samples
    at x = 0, 20, ..., 1200 and every sample height in [500, 700]. *)
Theorem generated_terrain_is_a_bounded_grid (fuel : nat) (g : Rng)
    (Hfuel : (20 <= fuel)%nat) :
  exists terrain zones,
    generate_terrain_and_landing_zones fuel g = Ok (terrain, zones)
    /\ length terrain = 61%nat
    /\ map fst terrain = Py.range 0 (WIDTH + 1) 20
    /\ (forall p, In p terrain -> 500 <= snd p /\ snd p <= 700).
Proof.
  destruct (generation_more fuel g Hfuel) as [st [Hgen [Hinv [Hmore _]]]].
  exists (terrain_points st), (landing_zones st).
  unfold generate_terrain_and_landing_zones. rewrite Hgen. cbn [bind].
  pose proof (inv_grid st Hinv) as Hgrid.
  pose proof (more_bounded g st Hmore) as Hb.
  split; [reflexivity |]. split; [exact (grid_length _ Hgrid) |].
  split; [exact Hgrid |].
  unfold bounded in Hb. rewrite Forall_forall in Hb. exact Hb.
Qed.

Lemma generated_terrain_is_a_bounded_grid_witness :
  exists terrain zones,
    generate_terrain_and_landing_zones 20 bumpy_source = Ok (terrain, zones)
    /\ length terrain = 61%nat.
Proof.
  destruct (generated_terrain_is_a_bounded_grid 20 bumpy_source)
    as [terrain [zones [Hgen [Hlen _]]]]; [lia |].
  exists terrain, zones. split; assumption.
Defined.

(** X11.  Whatever the random source, every returned pad is 10 thick, has
    maxLandingSpeed 2 and the label "Pad", and sits flush on the returned
    terrain: all terrain samples within the pad's x-range have one height
    pad_y, and the pad's rectangle is at floor(pad_y - 10), between 490 and
    690.  Later pads never disturb the flattening of earlier ones. *)
Theorem generated_pads_are_flush (fuel : nat) (g : Rng)
    (Hfuel : (20 <= fuel)%nat) :
  exists terrain zones,
    generate_terrain_and_landing_zones fuel g = Ok (terrain, zones)
    /\ forall lz, In lz zones ->
         Rect.height (rect lz) = 10%Z
         /\ maxLandingSpeed lz = 2
         /\ label lz = "Pad"%string
         /\ (490 <= Rect.y (rect lz) <= 690)%Z
         /\ exists pad_y,
              Rect.y (rect lz) = Qfloor (pad_y - 10)
              /\ forall tx ty,
                   In (tx, ty) terrain ->
                   (Rect.left (rect lz) <= tx <= Rect.right (rect lz))%Z ->
                   ty = pad_y.
Proof.
  destruct (generation_more fuel g Hfuel) as [st [Hgen [_ [Hmore _]]]].
  exists (terrain_points st), (landing_zones st).
  unfold generate_terrain_and_landing_zones. rewrite Hgen. cbn [bind].
  split; [reflexivity |].
  pose proof (more_flush g st Hmore) as Hflush. rewrite Forall_forall in Hflush.
  intros lz Hlz.
  destruct (Hflush lz Hlz) as [Hh [Hs [Hl [pad_y [Hp1 [Hp2 [Hy Hflat]]]]]]].
  repeat (split; [assumption |]). split.
  - rewrite Hy. split.
    + change 490%Z with (Qfloor 490). apply Qfloor_resp_le. lra.
    + change 690%Z with (Qfloor 690). apply Qfloor_resp_le. lra.
  - exists pad_y. split; [exact Hy | exact Hflat].
Qed.

Lemma generated_pads_are_flush_witness :
  exists terrain zones,
    generate_terrain_and_landing_zones 20 bumpy_source = Ok (terrain, zones).
Proof.
  destruct (generated_pads_are_flush 20 bumpy_source)
    as [terrain [zones [Hgen _]]]; [lia |].
  exists terrain, zones. exact Hgen.
Defined.

(** X12.  Whatever the random source, at least one pad is returned: the
    first candidate is always accepted.  No pad set is empty, and there are
    never more pads than attempts. *)
Theorem generation_places_a_pad (fuel : nat) (g : Rng)
    (Hfuel : (20 <= fuel)%nat) :
  exists st,
    generation fuel g = Ok st
    /\ (1 <= length (landing_zones st))%nat
    /\ (Z.of_nat (length (landing_zones st)) <= attempts st)%Z.
Proof.
  destruct (generation_more fuel g Hfuel) as [st [Hgen [Hinv [Hmore Hdone]]]].
  exists st. split; [exact Hgen |].
  split; [| exact (more_count g st Hmore)].
  unfold placing, num_zones in Hdone. apply andb_false_iff in Hdone.
  destruct Hdone as [Hd | Hd]; apply Z.ltb_ge in Hd.
  - lia.
  - apply (more_first g st Hmore). lia.
Qed.

Lemma generation_places_a_pad_witness :
  exists st,
    generation 20 touching_source = Ok st
    /\ (1 <= length (landing_zones st))%nat.
Proof.
  destruct (generation_places_a_pad 20 touching_source)
    as [st [Hgen [Hone _]]]; [lia |].
  exists st. split; assumption.
Defined.

(** X13.  Generation reads the random source in order and draws exactly
    61 + 2 * attempts numbers from it: one per terrain sample and two per
    placement attempt, rejected attempts included. *)
Theorem generation_draws (fuel : nat) (g : Rng) (Hfuel : (20 <= fuel)%nat) :
  exists st,
    generation fuel g = Ok st
    /\ draws (rng st) = draws g
    /\ Z.of_nat (cursor (rng st))
       = (Z.of_nat (cursor g) + 61 + 2 * attempts st)%Z.
Proof.
  destruct (generation_more fuel g Hfuel) as [st [Hgen [_ [Hmore _]]]].
  exists st. split; [exact Hgen |].
  split; [exact (more_draws g st Hmore) | exact (more_cursor g st Hmore)].
Qed.

Lemma generation_draws_witness :
  exists st,
    generation 20 flat_source = Ok st
    /\ Z.of_nat (cursor (rng st)) = (61 + 2 * attempts st)%Z.
Proof.
  destruct (generation_draws 20 flat_source) as [st [Hgen [_ Hc]]]; [lia |].
  exists st. split; [exact Hgen | exact Hc].
Defined.

(* ===================================================================== *)
(** * More on the craft dynamics *)
(* ===================================================================== *)

Section MoreDynamics.

Context `{M : Math}.

Lemma update_idle (dt : Q) (c : Lander.t) :
  Lander.update dt false c
  = Lander.make (Lander.x c + Lander.vx c)
                (Lander.y c + (Lander.vy c + Lander.gravity c))
                (Lander.vx c) (Lander.vy c + Lander.gravity c)
                (Lander.angle c) (Lander.fuel c) (Lander.gravity c)
                (Lander.thrust c) (Lander.fuelConsumptionRate c).
Proof. now rewrite update_closed_form. Qed.

Lemma update_dry (dt : Q) (thrusting : bool) (c : Lander.t) :
  Lander.fuel c <= 0 -> Lander.update dt thrusting c = Lander.update dt false c.
Proof.
  intros Hdry. rewrite !update_closed_form. unfold Lander.update_spec.
  rewrite (not_burning thrusting c (or_intror Hdry)). reflexivity.
Qed.

(** X14.  Without thrust the craft never slows its fall: over every
    sequence of calls of [update] with the key released, whatever the dt of
    each call, vx, fuel, angle and gravity are unchanged; with
    gravity >= 0, vy never decreases; and if the craft does not move up
    (vy >= 0) at the start, y never decreases. *)
Theorem free_fall_never_rises (calls : list (Q * bool)) (c : Lander.t)
    (Hidle : Forall (fun call => snd call = false) calls)
    (Hgravity : 0 <= Lander.gravity c) :
  let c' := Lander.updates calls c in
  Lander.vx c' = Lander.vx c
  /\ Lander.fuel c' = Lander.fuel c
  /\ Lander.angle c' = Lander.angle c
  /\ Lander.gravity c' = Lander.gravity c
  /\ Lander.vy c <= Lander.vy c'
  /\ (0 <= Lander.vy c -> Lander.y c <= Lander.y c').
Proof.
  revert c Hgravity. unfold Lander.updates.
  induction Hidle as [| [dt thrusting] calls Hfalse _ IH]; intros c Hg.
  - cbn [fold_left]. cbv zeta. repeat split; try reflexivity; intros; lra.
  - cbn [snd] in Hfalse. subst thrusting. cbn [fold_left fst snd].
    assert (Evx : Lander.vx (Lander.update dt false c) = Lander.vx c)
      by (now rewrite update_idle).
    assert (Efuel : Lander.fuel (Lander.update dt false c) = Lander.fuel c)
      by (now rewrite update_idle).
    assert (Eangle : Lander.angle (Lander.update dt false c) = Lander.angle c)
      by (now rewrite update_idle).
    assert (Eg : Lander.gravity (Lander.update dt false c) = Lander.gravity c)
      by (now rewrite update_idle).
    assert (Evy : Lander.vy (Lander.update dt false c)
                  = Lander.vy c + Lander.gravity c)
      by (now rewrite update_idle).
    assert (Ey : Lander.y (Lander.update dt false c)
                 = Lander.y c + (Lander.vy c + Lander.gravity c))
      by (now rewrite update_idle).
    set (c1 := Lander.update dt false c) in *.
    assert (Hg1 : 0 <= Lander.gravity c1) by (now rewrite Eg).
    specialize (IH c1 Hg1). cbv zeta in IH |- *.
    destruct IH as [Hvx [Hfuel [Hangle [Hgr [Hvy Hy]]]]].
    rewrite Evy in Hvy. rewrite Evy, Ey in Hy.
    split; [congruence |]. split; [congruence |]. split; [congruence |].
    split; [congruence |].
    split; [lra |].
    intros Hdown. assert (Hy' := Hy ltac:(lra)). lra.
Qed.

(** X15.  With dt >= 0 and a burn rate >= 0, one call of [update] never
    raises the fuel and lowers it by at most fuelConsumptionRate * dt; so
    over every sequence of calls with dt >= 0 the fuel never exceeds its
    initial value. *)
Theorem fuel_only_burns (c : Lander.t)
    (Hrate : 0 <= Lander.fuelConsumptionRate c) :
  (forall dt thrusting, 0 <= dt ->
     Lander.fuel c - Lander.fuelConsumptionRate c * dt
     <= Lander.fuel (Lander.update dt thrusting c)
     /\ Lander.fuel (Lander.update dt thrusting c) <= Lander.fuel c)
  /\ (forall calls, Forall (fun call => 0 <= fst call) calls ->
        Lander.fuel (Lander.updates calls c) <= Lander.fuel c).
Proof.
  assert (Hstep : forall c0 dt thrusting,
            0 <= Lander.fuelConsumptionRate c0 -> 0 <= dt ->
            Lander.fuel c0 - Lander.fuelConsumptionRate c0 * dt
            <= Lander.fuel (Lander.update dt thrusting c0)
            /\ Lander.fuel (Lander.update dt thrusting c0) <= Lander.fuel c0
            /\ Lander.fuelConsumptionRate (Lander.update dt thrusting c0)
               = Lander.fuelConsumptionRate c0).
  { intros c0 dt thrusting Hr Hdt. rewrite update_closed_form.
    unfold Lander.update_spec. cbn [Lander.fuel Lander.fuelConsumptionRate].
    assert (Hburn : 0 <= Lander.fuelConsumptionRate c0 * dt)
      by (apply Qmult_le_0_compat; assumption).
    set (burn := Lander.fuelConsumptionRate c0 * dt) in *.
    destruct thrusting; cbn [andb]; [| repeat split; lra].
    destruct (Qlt_bool 0 (Lander.fuel c0)) eqn:Epos; [| repeat split; lra].
    assert (Hpos : 0 <= Lander.fuel c0).
    { unfold Qlt_bool in Epos. apply negb_true_iff in Epos.
      destruct (Qlt_le_dec 0 (Lander.fuel c0)) as [Hlt | Hle]; [lra |].
      apply Qle_bool_iff in Hle. congruence. }
    destruct (Qlt_bool (Lander.fuel c0 - burn) 0) eqn:Eneg.
    - assert (Hneg : Lander.fuel c0 - burn <= 0).
      { unfold Qlt_bool in Eneg. apply negb_true_iff in Eneg.
        destruct (Qlt_le_dec 0 (Lander.fuel c0 - burn)) as [Hlt | Hle];
          [| exact Hle].
        assert (Hle : 0 <= Lander.fuel c0 - burn) by lra.
        apply Qle_bool_iff in Hle. congruence. }
      repeat split; lra.
    - repeat split; lra. }
  split.
  - intros dt thrusting Hdt.
    destruct (Hstep c dt thrusting Hrate Hdt) as [H1 [H2 _]]. now split.
  - intros calls Hall. revert c Hrate. unfold Lander.updates.
    induction Hall as [| [dt thrusting] calls Hdt _ IH]; intros c Hrate.
    + apply Qle_refl.
    + cbn [fold_left fst snd]. cbn [fst] in Hdt.
      destruct (Hstep c dt thrusting Hrate Hdt) as [_ [H2 Hr]].
      apply Qle_trans with (Lander.fuel (Lander.update dt thrusting c));
        [| exact H2].
      apply IH. now rewrite Hr.
Qed.

(** X16.  With no fuel left (fuel <= 0) the thrust key has no effect: every
    sequence of calls of [update] gives the state that the same calls with
    the key released give, and leaves fuel and vx as they are. *)
Theorem out_of_fuel (c : Lander.t) (Hdry : Lander.fuel c <= 0)
    (calls : list (Q * bool)) :
  Lander.updates calls c = Lander.updates (released calls) c
  /\ Lander.fuel (Lander.updates calls c) = Lander.fuel c
  /\ Lander.vx (Lander.updates calls c) = Lander.vx c.
Proof.
  revert c Hdry. unfold Lander.updates, released.
  induction calls as [| [dt thrusting] calls IH]; intros c Hdry.
  - repeat split.
  - cbn [fold_left map fst snd].
    rewrite (update_dry dt thrusting c Hdry).
    assert (Hdry' : Lander.fuel (Lander.update dt false c) <= 0)
      by (now rewrite update_idle).
    destruct (IH (Lander.update dt false c) Hdry') as [H1 [H2 H3]].
    split; [exact H1 |].
    split; [rewrite H2 | rewrite H3]; now rewrite update_idle.
Qed.

(** X17.  [update] has no guard on the sign of dt: a call with thrust,
    fuel > 0, a positive burn rate and dt < 0 raises the fuel. *)
Theorem negative_dt_refuels (dt : Q) (c : Lander.t)
    (Hdt : dt < 0) (Hfuel : 0 < Lander.fuel c)
    (Hrate : 0 < Lander.fuelConsumptionRate c) :
  Lander.fuel c < Lander.fuel (Lander.update dt true c).
Proof.
  rewrite update_closed_form. unfold Lander.update_spec. cbn [Lander.fuel andb].
  assert (Hburn : 0 < Lander.fuelConsumptionRate c * (- dt)).
  { apply Qmult_lt_0_compat; lra. }
  assert (E : Lander.fuelConsumptionRate c * - dt
              == - (Lander.fuelConsumptionRate c * dt)) by ring.
  set (burn := Lander.fuelConsumptionRate c * dt) in *.
  assert (Epos : Qlt_bool 0 (Lander.fuel c) = true).
  { unfold Qlt_bool. apply negb_true_iff.
    destruct (Qle_bool (Lander.fuel c) 0) eqn:Ele; [| reflexivity].
    apply Qle_bool_iff in Ele. lra. }
  rewrite Epos.
  assert (Eneg : Qlt_bool (Lander.fuel c - burn) 0 = false).
  { apply Qlt_bool_false. lra. }
  rewrite Eneg. lra.
Qed.

End MoreDynamics.

Lemma free_fall_never_rises_witness :
  Lander.vy (Lander.init (1 # 10))
  <= Lander.vy (Lander.updates (M := axis_math)
                               [(1 # 60, false); (1 # 30, false)]
                               (Lander.init (1 # 10))).
Proof.
  assert (Hidle : Forall (fun call : Q * bool => snd call = false)
                         [(1 # 60, false); (1 # 30, false)])
    by (repeat constructor).
  assert (Hgravity : 0 <= Lander.gravity (Lander.init (1 # 10)))
    by discriminate.
  destruct (free_fall_never_rises (M := axis_math) _ (Lander.init (1 # 10))
              Hidle Hgravity) as [_ [_ [_ [_ [Hvy _]]]]].
  exact Hvy.
Defined.

Lemma fuel_only_burns_witness :
  Lander.fuel (Lander.update (M := axis_math) (1 # 60) true (Lander.init (1 # 10)))
  <= Lander.fuel (Lander.init (1 # 10)).
Proof.
  assert (Hrate : 0 <= Lander.fuelConsumptionRate (Lander.init (1 # 10)))
    by discriminate.
  destruct (fuel_only_burns (M := axis_math) (Lander.init (1 # 10)) Hrate)
    as [Hone _].
  assert (Hdt : 0 <= 1 # 60) by discriminate.
  exact (proj2 (Hone (1 # 60) true Hdt)).
Defined.

Lemma out_of_fuel_witness :
  Lander.vx (Lander.updates (M := axis_math) [(1 # 60, true)] dry_lander)
  = Lander.vx dry_lander.
Proof.
  assert (Hdry : Lander.fuel dry_lander <= 0) by discriminate.
  destruct (out_of_fuel (M := axis_math) dry_lander Hdry [(1 # 60, true)])
    as [_ [_ Hvx]].
  exact Hvx.
Defined.

Lemma negative_dt_refuels_witness :
  Lander.fuel (Lander.init (1 # 10))
  < Lander.fuel (Lander.update (M := axis_math) (- (1)) true (Lander.init (1 # 10))).
Proof.
  apply (negative_dt_refuels (M := axis_math)); reflexivity.
Defined.

(* ===================================================================== *)
(** * The frames of a session *)
(* ===================================================================== *)

Section Session.

Context `{M : Math}.

Lemma frame_playing (dt : Q) (keys : Keys) (s : Session) :
  s_game_state s = playing ->
  frame dt keys s
  = (r <- collision (s_terrain_points s) (s_landing_zones s)
                    (moved dt keys (s_lander s)) (s_score s) ;;
     Ok {| s_lander := fst (fst r);
           s_terrain_points := s_terrain_points s;
           s_landing_zones := s_landing_zones s;
           s_score := snd (fst r);
           s_game_state := snd r |}).
Proof.
  intros Hp. unfold frame, moved. rewrite Hp.
  match goal with
  | |- bind ?c _ = bind ?c _ => destruct c as [[[l sc] st] |]; reflexivity
  end.
Qed.

Lemma frame_idle (dt : Q) (keys : Keys) (s : Session) :
  s_game_state s <> playing -> frame dt keys s = Ok s.
Proof.
  intros Hp. unfold frame. destruct (s_game_state s); congruence.
Qed.

Lemma collision_cases (terrain_points : list point)
      (landing_zones : list LandingZone) (lander lander' : Lander.t)
      (score score' : Z) (state' : GameState) :
  collision terrain_points landing_zones lander score
  = Ok (lander', score', state') ->
  (state' = playing /\ lander' = lander /\ score' = score
   /\ exists ground_y,
        get_terrain_height (Lander.x lander) terrain_points 20 = Ok ground_y
        /\ Lander.y lander + 15 < ground_y)
  \/ (state' = crashed /\ lander' = stopped lander /\ score' = score)
  \/ (state' = landed /\ lander' = stopped lander
      /\ exists bonus,
           (0 <= bonus)%Z
           /\ score' = (score + (Py.int (Lander.fuel lander) + bonus))%Z).
Proof.
  unfold collision.
  destruct (get_terrain_height (Lander.x lander) terrain_points 20) as [gy |];
    [| discriminate].
  cbn [bind].
  destruct (Qle_bool gy (Lander.y lander + 15)) eqn:Ec.
  - destruct (in_zone (Lander.x lander) landing_zones) as [lz |].
    + destruct (Qle_bool (hypot (Lander.vx lander) (Lander.vy lander))
                         (maxLandingSpeed lz)).
      * cbn [fst snd]. intros [= <- <- <-]. right. right.
        repeat split. eexists. split; [| reflexivity]. apply Z.le_max_l.
      * cbn [fst snd]. intros [= <- <- <-]. right. left. repeat split.
    + cbn [fst snd]. intros [= <- <- <-]. right. left. repeat split.
  - intros [= <- <- <-]. left. repeat split. exists gy. split; [reflexivity |].
    apply Qnot_le_lt. intros Hle. apply Qle_bool_iff in Hle. congruence.
Qed.

Lemma collision_total (terrain_points : list point)
      (landing_zones : list LandingZone) (lander : Lander.t) (score : Z) :
  grid_profile terrain_points ->
  exists r, collision terrain_points landing_zones lander score = Ok r.
Proof.
  intros Hg. unfold collision.
  destruct (height_total terrain_points (Lander.x lander) Hg) as [gy Hgy].
  rewrite Hgy. cbn [bind].
  destruct (Qle_bool gy (Lander.y lander + 15)); eauto.
Qed.

Lemma frame_total (dt : Q) (keys : Keys) (s : Session) :
  grid_profile (s_terrain_points s) ->
  exists s',
    frame dt keys s = Ok s'
    /\ s_terrain_points s' = s_terrain_points s
    /\ s_landing_zones s' = s_landing_zones s.
Proof.
  intros Hg. destruct (s_game_state s) eqn:Hp;
    try (exists s; split; [apply frame_idle; congruence | split; reflexivity]).
  rewrite (frame_playing dt keys s Hp).
  destruct (collision_total (s_terrain_points s) (s_landing_zones s)
              (moved dt keys (s_lander s)) (s_score s) Hg) as [r Hr].
  rewrite Hr. cbn [bind]. eexists. split; [reflexivity |]. split; reflexivity.
Qed.

Lemma frames_total (inputs : list (Q * Keys)) (s : Session) :
  grid_profile (s_terrain_points s) ->
  exists s',
    frames inputs s = Ok s'
    /\ s_terrain_points s' = s_terrain_points s
    /\ s_landing_zones s' = s_landing_zones s.
Proof.
  revert s. induction inputs as [| [dt keys] inputs IH]; intros s Hg.
  - exists s. repeat split.
  - cbn [frames].
    destruct (frame_total dt keys s Hg) as [s1 [Hs1 [Ht Hz]]].
    rewrite Hs1. cbn [bind].
    destruct (IH s1) as [s' [Hs' [Ht' Hz']]]; [now rewrite Ht |].
    exists s'. split; [exact Hs' |]. split; congruence.
Qed.

(** X18.  The simulation never raises on generated terrain: whatever the
    random source, the gravity and the dt and keys of the frames,
    generation returns a terrain and pads, and the playing block of the
    main loop (rotation, update, clamping, collision detection) runs frame
    after frame on them without IndexError or ZeroDivisionError and without
    changing the terrain or the pads.  Events and drawing are outside this
    statement. *)
Theorem simulation_never_raises (fuel : nat) (g : Rng) (gravity : Q)
    (inputs : list (Q * Keys)) (Hfuel : (20 <= fuel)%nat) :
  exists terrain zones s,
    generate_terrain_and_landing_zones fuel g = Ok (terrain, zones)
    /\ frames inputs (new_session gravity terrain zones) = Ok s
    /\ s_terrain_points s = terrain
    /\ s_landing_zones s = zones.
Proof.
  destruct (generation_spec fuel g Hfuel) as [st [Hgen [Hinv _]]].
  exists (terrain_points st), (landing_zones st).
  unfold generate_terrain_and_landing_zones. rewrite Hgen. cbn [bind].
  destruct (frames_total inputs
              (new_session gravity (terrain_points st) (landing_zones st)))
    as [s [Hs [Ht Hz]]].
  { exact (inv_grid st Hinv). }
  exists s. split; [reflexivity |]. split; [exact Hs |].
  split; [exact Ht | exact Hz].
Qed.

Lemma stopped_x (lander : Lander.t) :
  Lander.x (stopped lander) = Lander.x lander.
Proof. reflexivity. Qed.

Lemma moved_on_screen (dt : Q) (keys : Keys) (lander : Lander.t) :
  0 <= Lander.x (moved dt keys lander)
  /\ Lander.x (moved dt keys lander) <= inject_Z WIDTH.
Proof.
  unfold moved.
  set (l1 := Lander.update dt (K_SPACE keys) _).
  assert (HW : 0 <= inject_Z WIDTH) by discriminate.
  destruct (Qlt_bool (Lander.x l1) 0) eqn:E0.
  - cbn [Lander.set_x Lander.x].
    assert (E : Qlt_bool (inject_Z WIDTH) 0 = false) by reflexivity.
    rewrite E. cbn [Lander.x]. split; [apply Qle_refl | exact HW].
  - apply Qlt_bool_false in E0.
    destruct (Qlt_bool (inject_Z WIDTH) (Lander.x l1)) eqn:EW.
    + cbn [Lander.set_x Lander.x]. split; [exact HW | apply Qle_refl].
    + apply Qlt_bool_false in EW. now split.
Qed.

(** X19.  After every frame played, the craft is on the screen:
    0 <= lander.x <= WIDTH. *)
Theorem frame_keeps_craft_on_screen (dt : Q) (keys : Keys) (s s' : Session)
    (Hplaying : s_game_state s = playing)
    (Hframe : frame dt keys s = Ok s') :
  0 <= Lander.x (s_lander s') /\ Lander.x (s_lander s') <= inject_Z WIDTH.
Proof.
  rewrite (frame_playing dt keys s Hplaying) in Hframe.
  pose proof (moved_on_screen dt keys (s_lander s)) as Hon.
  remember (moved dt keys (s_lander s)) as m eqn:Em. clear Em.
  destruct (collision (s_terrain_points s) (s_landing_zones s) m (s_score s))
    as [[[l sc] st] |] eqn:Hc; [| discriminate].
  cbn [bind fst snd] in Hframe. injection Hframe as <-. cbn [s_lander].
  destruct (collision_cases _ _ _ _ _ _ _ Hc)
    as [[_ [-> _]] | [[_ [-> _]] | [_ [-> _]]]];
    rewrite ?stopped_x; exact Hon.
Qed.

(** X20.  Once the game is landed or crashed it is frozen: every sequence
    of frames leaves the session, with its craft and its score, as it
    is. *)
Theorem terminal_state_is_frozen (inputs : list (Q * Keys)) (s : Session)
    (Hover : s_game_state s <> playing) :
  frames inputs s = Ok s.
Proof.
  induction inputs as [| [dt keys] inputs IH]; cbn [frames]; [reflexivity |].
  rewrite (frame_idle dt keys s Hover). exact IH.
Qed.

(** X21.  A frame played either finds no contact (the craft's bottom is
    above the ground) and leaves the game playing with the score unchanged,
    or ends the game as landed or crashed with the craft at rest,
    vx = vy = 0, where the frame's move put it. *)
Theorem frame_outcome (dt : Q) (keys : Keys) (s s' : Session)
    (Hplaying : s_game_state s = playing)
    (Hframe : frame dt keys s = Ok s') :
  (s_game_state s' = playing
   /\ s_lander s' = moved dt keys (s_lander s)
   /\ s_score s' = s_score s
   /\ exists ground_y,
        get_terrain_height (Lander.x (s_lander s')) (s_terrain_points s) 20
        = Ok ground_y
        /\ Lander.y (s_lander s') + 15 < ground_y)
  \/ ((s_game_state s' = landed \/ s_game_state s' = crashed)
      /\ s_lander s' = stopped (moved dt keys (s_lander s))
      /\ Lander.vx (s_lander s') = 0 /\ Lander.vy (s_lander s') = 0).
Proof.
  rewrite (frame_playing dt keys s Hplaying) in Hframe.
  remember (moved dt keys (s_lander s)) as m eqn:Em. clear Em.
  destruct (collision (s_terrain_points s) (s_landing_zones s) m (s_score s))
    as [[[l sc] st] |] eqn:Hc; [| discriminate].
  cbn [bind fst snd] in Hframe. injection Hframe as <-.
  cbn [s_lander s_score s_game_state].
  destruct (collision_cases _ _ _ _ _ _ _ Hc)
    as [[-> [-> [-> Hair]]] | [[-> [-> _]] | [-> [-> _]]]].
  - left. repeat split. exact Hair.
  - right. split; [now right |]. repeat split.
  - right. split; [now left |]. repeat split.
Qed.

Lemma moved_fuel_nonneg (dt : Q) (keys : Keys) (lander : Lander.t) :
  0 <= Lander.fuel lander -> 0 <= Lander.fuel (moved dt keys lander).
Proof.
  intros Hfuel. unfold moved.
  repeat match goal with
         | |- context [if ?b then _ else _] => destruct b
         end;
    cbn [Lander.set_x Lander.set_angle Lander.fuel];
    apply update_fuel_nonneg; exact Hfuel.
Qed.

Lemma frame_score (dt : Q) (keys : Keys) (s s' : Session) :
  0 <= Lander.fuel (s_lander s) ->
  frame dt keys s = Ok s' ->
  (s_game_state s <> menu -> s_game_state s' <> menu)
  /\ (s_score s <= s_score s')%Z
  /\ (s_game_state s' <> landed -> s_score s' = s_score s
                                   \/ s_game_state s = landed).
Proof.
  intros Hfuel Hframe.
  destruct (s_game_state s) eqn:Hp;
    try (rewrite frame_idle in Hframe by congruence; injection Hframe as <-;
         rewrite Hp; repeat split; try congruence; try lia; try (intros; now left)).
  rewrite (frame_playing dt keys s Hp) in Hframe.
  pose proof (moved_fuel_nonneg dt keys (s_lander s) Hfuel) as Hf.
  remember (moved dt keys (s_lander s)) as m eqn:Em. clear Em.
  destruct (collision (s_terrain_points s) (s_landing_zones s) m (s_score s))
    as [[[l sc] st] |] eqn:Hc; [| discriminate].
  cbn [bind fst snd] in Hframe. injection Hframe as <-.
  cbn [s_score s_game_state].
  destruct (collision_cases _ _ _ _ _ _ _ Hc)
    as [[-> [_ [-> _]]] | [[-> [_ ->]] | [-> [_ [bonus [Hb ->]]]]]].
  - repeat split; try congruence; try lia; try (intros; now left).
  - repeat split; try congruence; try lia; try (intros; now left).
  - split; [congruence |]. split; [| congruence].
    rewrite (int_nonneg _ Hf).
    assert (0 <= Qfloor (Lander.fuel m))%Z.
    { change 0%Z with (Qfloor 0). apply Qfloor_resp_le. exact Hf. }
    lia.
Qed.

(** X22.  In a session the score never goes down and is awarded at most
    once: after every run of frames from a new session the game is not in
    the menu, the score is >= 0, and it is 0 unless the game is landed. *)
Theorem session_score (inputs : list (Q * Keys)) (gravity : Q)
    (terrain_points : list point) (landing_zones : list LandingZone)
    (s : Session)
    (Hrun : frames inputs (new_session gravity terrain_points landing_zones)
            = Ok s) :
  s_game_state s <> menu
  /\ (0 <= s_score s)%Z
  /\ (s_game_state s <> landed -> s_score s = 0%Z).
Proof.
  assert (Hgen : forall s0,
            0 <= Lander.fuel (s_lander s0) ->
            s_game_state s0 <> menu -> (0 <= s_score s0)%Z ->
            (s_game_state s0 <> landed -> s_score s0 = 0%Z) ->
            frames inputs s0 = Ok s ->
            s_game_state s <> menu /\ (0 <= s_score s)%Z
            /\ (s_game_state s <> landed -> s_score s = 0%Z)).
  { clear Hrun. induction inputs as [| [dt keys] inputs IH];
      intros s0 Hf Hm Hs Hz; cbn [frames].
    - intros [= <-]. repeat split; assumption.
    - destruct (frame dt keys s0) as [s1 |] eqn:Hs1; [| discriminate].
      cbn [bind].
      destruct (frame_score dt keys s0 s1 Hf Hs1) as [Hm1 [Hmono Hsame]].
      apply IH.
      + exact (frame_fuel_nonneg dt keys s0 s1 Hf Hs1).
      + now apply Hm1.
      + lia.
      + intros Hnl. destruct (Hsame Hnl) as [-> | Hland].
        * apply Hz. intros Hland.
          rewrite (frame_idle dt keys s0) in Hs1 by congruence.
          injection Hs1 as <-. congruence.
        * rewrite (frame_idle dt keys s0) in Hs1 by congruence.
          injection Hs1 as <-. congruence. }
  apply (Hgen (new_session gravity terrain_points landing_zones));
    try exact Hrun; cbn; try discriminate; try lia; try reflexivity.
Qed.

End Session.

Lemma simulation_never_raises_witness :
  exists terrain zones s,
    generate_terrain_and_landing_zones 20 flat_source = Ok (terrain, zones)
    /\ frames (M := axis_math) [(1 # 60, no_keys); (1 # 60, all_keys)]
              (new_session (1 # 10) terrain zones) = Ok s.
Proof.
  destruct (simulation_never_raises (M := axis_math) 20 flat_source (1 # 10)
              [(1 # 60, no_keys); (1 # 60, all_keys)])
    as [terrain [zones [s [Hgen [Hrun _]]]]]; [lia |].
  exists terrain, zones, s. split; assumption.
Defined.

Lemma frame_keeps_craft_on_screen_witness :
  exists s',
    frame (M := axis_math) (1 # 60) no_keys sample_session = Ok s'
    /\ 0 <= Lander.x (s_lander s')
    /\ Lander.x (s_lander s') <= inject_Z WIDTH.
Proof.
  eexists. split; [vm_compute; reflexivity |].
  apply (frame_keeps_craft_on_screen (M := axis_math) (1 # 60) no_keys
           sample_session); [reflexivity | vm_compute; reflexivity].
Defined.

Lemma terminal_state_is_frozen_witness :
  frames (M := axis_math) [(1 # 60, all_keys); (1 # 60, no_keys)] landed_session
  = Ok landed_session.
Proof.
  apply (terminal_state_is_frozen (M := axis_math)). discriminate.
Defined.

Lemma frame_outcome_witness :
  exists s',
    frame (M := axis_math) (1 # 60) no_keys sample_session = Ok s'
    /\ s_game_state s' = playing
    /\ s_score s' = 0%Z.
Proof.
  eexists. split; [vm_compute; reflexivity |].
  match goal with
  | |- s_game_state ?s' = _ /\ _ =>
      destruct (frame_outcome (M := axis_math) (1 # 60) no_keys
                  sample_session s' eq_refl)
        as [[Hstate [_ [Hscore _]]] | [[Hover | Hover] _]];
      [vm_compute; reflexivity | | discriminate Hover | discriminate Hover]
  end.
  split; [exact Hstate | exact Hscore].
Defined.

Lemma session_score_witness :
  exists s,
    frames (M := axis_math) [(1 # 60, no_keys); (1 # 60, all_keys)]
           sample_session = Ok s
    /\ (0 <= s_score s)%Z.
Proof.
  eexists. split; [vm_compute; reflexivity |].
  apply (session_score (M := axis_math) [(1 # 60, no_keys); (1 # 60, all_keys)]
           (1 # 10) flat_profile [sample_pad]).
  vm_compute. reflexivity.
Defined.

(* ===================================================================== *)
(** * The custom gravity prompt *)
(* ===================================================================== *)

Section PromptFacts.

Variable F : Type.
Variable float : string -> option F.

Lemma prompt_loop_app (e1 e2 : list Prompt.event) (input_str : string) :
  Prompt.loop float (e1 ++ e2) input_str
  = match Prompt.loop float e1 input_str with
    | Prompt.Waiting t => Prompt.loop float e2 t
    | done => done
    end.
Proof.
  revert input_str. induction e1 as [| e e1 IH]; intros input_str.
  - reflexivity.
  - cbn [app Prompt.loop]. destruct e as [| [| |] u |]; try apply IH.
    + reflexivity.
    + destruct (float input_str); [reflexivity | apply IH].
Qed.

(** X24.  The prompt handles its events in order: on two runs of events in
    a row it returns or exits as on the first run when that run ends the
    prompt, ignoring the second, and otherwise goes on with the second run
    from the text the first has left. *)
Theorem prompt_in_sequence (e1 e2 : list Prompt.event) :
  Prompt.custom_gravity_input float (e1 ++ e2)
  = match Prompt.custom_gravity_input float e1 with
    | Prompt.Waiting t => Prompt.loop float e2 t
    | done => done
    end.
Proof. apply prompt_loop_app. Qed.

(** X25.  RETURN on a text that is no float clears the input: after it the
    prompt behaves as if it had just been opened. *)
Theorem rejected_entry_restarts (typed rest : list Prompt.event) (t u : string)
    (Htyped : Prompt.custom_gravity_input float typed = Prompt.Waiting t)
    (Hbad : float t = None) :
  Prompt.custom_gravity_input float
    (typed ++ Prompt.KEYDOWN Prompt.K_RETURN u :: rest)
  = Prompt.custom_gravity_input float rest.
Proof.
  unfold Prompt.custom_gravity_input in *.
  rewrite prompt_loop_app, Htyped. cbn [Prompt.loop]. now rewrite Hbad.
Qed.

(** RETURN on a text that is a float returns it, whatever follows. *)
Lemma accepted_entry_returns (typed rest : list Prompt.event) (t u : string)
      (val : F) :
  Prompt.custom_gravity_input float typed = Prompt.Waiting t ->
  float t = Some val ->
  Prompt.custom_gravity_input float
    (typed ++ Prompt.KEYDOWN Prompt.K_RETURN u :: rest)
  = Prompt.Returned val.
Proof.
  unfold Prompt.custom_gravity_input. intros Htyped Hok.
  rewrite prompt_loop_app, Htyped. cbn [Prompt.loop]. now rewrite Hok.
Qed.

Lemma string_append_assoc (a b c : string) :
  String.append (String.append a b) c = String.append a (String.append b c).
Proof.
  induction a as [| x a IH]; [reflexivity |].
  cbn [String.append]. now rewrite IH.
Qed.

Lemma typing_appends (cs : list Ascii.ascii) (rest : list Prompt.event)
      (s : string) :
  Prompt.loop float (Prompt.typing cs ++ rest) s
  = Prompt.loop float rest (String.append s (string_of_list_ascii cs)).
Proof.
  revert s. induction cs as [| c cs IH]; intros s.
  - cbn [Prompt.typing map app string_of_list_ascii].
    f_equal. induction s as [| x s IHs]; [reflexivity |].
    cbn [String.append]. now rewrite <- IHs.
  - cbn [Prompt.typing map app Prompt.loop string_of_list_ascii].
    fold (Prompt.typing cs). rewrite IH, string_append_assoc. reflexivity.
Qed.

Lemma backspaces_drop (k : nat) (rest : list Prompt.event) (u s : string) :
  Prompt.loop float (repeat (Prompt.KEYDOWN Prompt.K_BACKSPACE u) k ++ rest) s
  = Prompt.loop float rest (Nat.iter k Prompt.drop_last s).
Proof.
  revert s. induction k as [| k IH]; intros s; [reflexivity |].
  cbn [repeat app Prompt.loop]. rewrite IH, Nat.iter_succ_r. reflexivity.
Qed.

Lemma drop_last_length (s : string) :
  String.length (Prompt.drop_last s) = pred (String.length s).
Proof.
  induction s as [| c s IH]; [reflexivity |].
  cbn [Prompt.drop_last]. destruct s as [| d s]; [reflexivity |].
  cbn [String.length] in *. now rewrite IH.
Qed.

Lemma erased_length (k : nat) (s : string) :
  String.length (Nat.iter k Prompt.drop_last s) = (String.length s - k)%nat.
Proof.
  induction k as [| k IH].
  - cbn. lia.
  - rewrite Nat.iter_succ, drop_last_length, IH. lia.
Qed.

Lemma typed_length (cs : list Ascii.ascii) :
  String.length (string_of_list_ascii cs) = length cs.
Proof.
  induction cs as [| c cs IH]; [reflexivity |]. cbn. now rewrite IH.
Qed.

(** X26.  Typing characters and then pressing BACKSPACE at least as often
    leaves an empty input again, and BACKSPACE on the empty input does
    nothing: the prompt goes on as if it had just been opened. *)
Theorem typed_text_can_be_erased (cs : list Ascii.ascii) (k : nat)
    (rest : list Prompt.event) (u : string)
    (Henough : (length cs <= k)%nat) :
  Prompt.custom_gravity_input float
    (Prompt.typing cs ++ repeat (Prompt.KEYDOWN Prompt.K_BACKSPACE u) k ++ rest)
  = Prompt.custom_gravity_input float rest.
Proof.
  unfold Prompt.custom_gravity_input.
  rewrite typing_appends, backspaces_drop. cbn [String.append].
  assert (Hlen : String.length
                   (Nat.iter k Prompt.drop_last (string_of_list_ascii cs)) = 0%nat)
    by (rewrite erased_length, typed_length; lia).
  destruct (Nat.iter k Prompt.drop_last (string_of_list_ascii cs));
    [reflexivity | discriminate].
Qed.

Lemma loop_returns_a_float (events : list Prompt.event) (input_str : string)
      (val : F) :
  Prompt.loop float events input_str = Prompt.Returned val ->
  exists t, float t = Some val.
Proof.
  revert input_str. induction events as [| e events IH]; intros input_str;
    cbn [Prompt.loop]; [discriminate |].
  destruct e as [| [| |] u |]; try apply IH; [discriminate |].
  destruct (float input_str) as [v |] eqn:Ef; [| apply IH].
  intros [= <-]. now exists input_str.
Qed.

(** X27.  The prompt returns nothing but a converted text: whatever the
    events, a returned value is [float] of some text, so a text that is no
    float is never accepted. *)
Theorem prompt_returns_only_floats (events : list Prompt.event) (val : F)
    (Hreturned : Prompt.custom_gravity_input float events = Prompt.Returned val) :
  exists t, float t = Some val.
Proof. exact (loop_returns_a_float events EmptyString val Hreturned). Qed.

End PromptFacts.

Lemma rejected_entry_restarts_witness :
  Prompt.custom_gravity_input Prompt.only_one
    (Prompt.typing ["x"%char]
     ++ Prompt.KEYDOWN Prompt.K_RETURN "" :: Prompt.typing ["1"%char])
  = Prompt.custom_gravity_input Prompt.only_one (Prompt.typing ["1"%char]).
Proof.
  apply (rejected_entry_restarts Z Prompt.only_one (Prompt.typing ["x"%char])
           (Prompt.typing ["1"%char]) "x" ""); reflexivity.
Defined.

Lemma typed_text_can_be_erased_witness :
  Prompt.custom_gravity_input Prompt.only_one
    (Prompt.typing ["x"%char; "y"%char]
     ++ repeat (Prompt.KEYDOWN Prompt.K_BACKSPACE "") 3
     ++ [Prompt.KEYDOWN Prompt.K_OTHER "1"; Prompt.KEYDOWN Prompt.K_RETURN ""])
  = Prompt.custom_gravity_input Prompt.only_one
      [Prompt.KEYDOWN Prompt.K_OTHER "1"; Prompt.KEYDOWN Prompt.K_RETURN ""].
Proof.
  apply (typed_text_can_be_erased Z Prompt.only_one ["x"%char; "y"%char] 3).
  cbn. lia.
Defined.

Lemma prompt_returns_only_floats_witness :
  exists t, Prompt.only_one t = Some 1%Z.
Proof.
  apply (prompt_returns_only_floats Z Prompt.only_one
           [Prompt.KEYDOWN Prompt.K_OTHER "1"; Prompt.KEYDOWN Prompt.K_RETURN ""]).
  reflexivity.
Defined.
